(** * BBC headline notifier: a shallow embedding of [scraper.py]

    The development follows the source file top to bottom: Python strings,
    the exception/state monad in which the effectful functions run, the
    outside world (environment variables, the SQLite file, the BBC page and
    the Telegram API), and then the functions of the script under their own
    names.  Console output (spinner, coloured status lines, the pretty
    table of [display_headlines]) carries no data and is left out. *)

From Stdlib Require Import ZArith NArith Ascii String DecimalString.
From stdpp Require Import base option list.

Local Open Scope nat_scope.

(** ** Python strings

    A Python [str] is a sequence of Unicode code points and [len] counts
    code points, so a string is a list of code points here. *)

Abbreviation str := (list N).

(** A literal written in ASCII. *)
Definition lit (s : string) : str := N_of_ascii <$> list_ascii_of_string s.

(** ["\n"] *)
Definition nl : str := [10%N].

(** [len(s)] *)
Definition len (s : str) : nat := length s.

(** [s.startswith(p)] *)
Fixpoint startswith (s p : str) {struct p} : bool :=
  match p, s with
  | [], _ => true
  | _ :: _, [] => false
  | c :: p', d :: s' => if decide (c = d) then startswith s' p' else false
  end.

(** [str.isspace] on one code point: the code points Python's [strip]
    removes. *)
Definition isspace (c : N) : bool :=
  ((9 <=? c) && (c <=? 13) || (28 <=? c) && (c <=? 32)
   || (c =? 133) || (c =? 160) || (c =? 5760)
   || (8192 <=? c) && (c <=? 8202) || (c =? 8232) || (c =? 8233)
   || (c =? 8239) || (c =? 8287) || (c =? 12288))%N.

Fixpoint lstrip (s : str) : str :=
  match s with
  | [] => []
  | c :: s' => if isspace c then lstrip s' else s
  end.

(** [s.strip()] *)
Definition strip (s : str) : str := rev (lstrip (rev (lstrip s))).

(** [s.split(sep)] for a one-character separator; [cur] is the field being
    read, most recent character first. *)
Fixpoint split_from (sep : N) (cur : str) (s : str) : list str :=
  match s with
  | [] => [rev cur]
  | c :: s' =>
      if decide (c = sep) then rev cur :: split_from sep [] s'
      else split_from sep (c :: cur) s'
  end.

Definition split (sep : N) (s : str) : list str := split_from sep [] s.

(** [str(n)] for a natural number. *)
Definition str_of_nat (n : nat) : str :=
  lit (NilZero.string_of_uint (Nat.to_uint n)).

(** Truth value of a list or string: non-empty. *)
Definition truthy {A} (l : list A) : bool :=
  match l with [] => false | _ :: _ => true end.

(** Truth value of a value that may be [None]. *)
Definition truthy_opt {A} (o : option (list A)) : bool :=
  match o with None => false | Some l => truthy l end.

(** ** Constants *)

Definition BBC_URL : str := lit "https://www.bbc.com".

(** ** Exceptions and results *)

Inductive exn :=
| RequestException    (* requests: connection error, timeout *)
| HTTPError           (* response.raise_for_status() *)
| ParserError         (* BeautifulSoup *)
| OperationalError.   (* sqlite3 *)

Inductive Result (A : Type) :=
| Ok (a : A)
| Raise (e : exn).
Arguments Ok {A} a.
Arguments Raise {A} e.

(** ** The world outside the script *)

(** An anchor element as the extractor reads it:
    [a.get_text(' ', strip=True)] and the [href] attribute, if any. *)
Record Tag := { get_text : str; href : option str }.

(** A parsed page, observed through [soup.select(selector)]: the matching
    elements in document order. *)
Definition Soup := str -> list Tag.

(** What [requests.get] does: raise, or answer with a status code and a
    body; [parsed] is what [BeautifulSoup(response.text, 'html.parser')]
    makes of the body, [None] when the parser raises. *)
Record Response := { status_code : Z; parsed : option Soup }.

Inductive GetOutcome :=
| GetRaises
| GetReturns (r : Response).

(** What [requests.post] does: raise, or answer with a status code. *)
Inductive PostOutcome :=
| PostRaises
| PostReturns (status : Z).

(** One row of the table [headlines]. *)
Record SeenRecord := {
  id : Z;
  rec_title : str;
  rec_url : str;
  timestamp : Z
}.

(** The table together with the AUTOINCREMENT counter kept for it. *)
Record Table := { rows : list SeenRecord; sqlite_sequence : Z }.

(** The file [headlines.db]: whether [sqlite3.connect] can open it, whether
    it can be written, and the committed table [headlines] if it exists.
    A file that does not exist yet and a file without the table are not
    told apart (both have no table), so that [sqlite3.connect] creating
    the empty file is not a change of this record. *)
Record Disk := {
  openable : bool;
  writable : bool;
  headlines_table : option Table
}.

(** [os.environ] after [load_dotenv()]. *)
Record Environ := {
  TELEGRAM_TOKEN : option str;
  TELEGRAM_CHAT_IDS : option str
}.

Record World := {
  environ : Environ;
  bbc : GetOutcome;                 (* the answer to GET BBC_URL *)
  telegram : nat -> PostOutcome;    (* the answer to the k-th POST of the run *)
  now : Z                           (* CURRENT_TIMESTAMP *)
}.

(** ** Observable calls *)

Inductive Sql :=
| CreateTable
| SelectCount
| SelectIdByTitle (title : str)
| InsertHeadline (title url : str).

Inductive Event :=
| Connect                                  (* sqlite3.connect(DB_NAME) *)
| Execute (q : Sql)                        (* cursor.execute *)
| Commit                                   (* conn.commit() *)
| Close                                    (* conn.close() *)
| Get (url : str)                          (* requests.get *)
| Select (selector : str)                  (* soup.select *)
| Post (url chat_id text : str).           (* requests.post *)

(** ** Program state

    [session] is the open connection's view of the table, uncommitted
    inserts included ([None] inside: the table does not exist); [posts]
    counts the POST requests made so far. *)
Record State := {
  disk : Disk;
  session : option (option Table);
  posts : nat;
  trace : list Event
}.

Definition M (A : Type) : Type := State -> Result A * State.

Definition ret {A} (a : A) : M A := fun s => (Ok a, s).

Definition bind {A B} (m : M A) (k : A -> M B) : M B :=
  fun s =>
    match m s with
    | (Ok a, s') => k a s'
    | (Raise e, s') => (Raise e, s')
    end.

Definition raise {A} (e : exn) : M A := fun s => (Raise e, s).

(** [try: body  except Exception: handler] *)
Definition try_except {A} (body : M A) (handler : exn -> M A) : M A :=
  fun s =>
    match body s with
    | (Ok a, s') => (Ok a, s')
    | (Raise e, s') => handler e s'
    end.

(** [try: body  finally: cleanup] *)
Definition try_finally {A} (body : M A) (cleanup : M unit) : M A :=
  fun s =>
    match body s with
    | (r, s') =>
        match cleanup s' with
        | (Ok _, s'') => (r, s'')
        | (Raise e, s'') => (Raise e, s'')
        end
    end.

Declare Scope py_scope.
Delimit Scope py_scope with py.
Notation "x <- c1 ;; c2" := (bind c1 (fun x => c2))
  (at level 100, c1 at next level, right associativity) : py_scope.
Notation "c1 ;; c2" := (bind c1 (fun _ => c2))
  (at level 100, right associativity) : py_scope.
Local Open Scope py_scope.

(** The state after the calls [evs] have been observed. *)
Definition emit (evs : list Event) (s : State) : State :=
  {| disk := disk s; session := session s;
     posts := posts s; trace := trace s ++ evs |}.

Definition log (e : Event) : M unit := fun s => (Ok tt, emit [e] s).

Definition set_session (v : option (option Table)) : M unit :=
  fun s => (Ok tt, {| disk := disk s; session := v;
                      posts := posts s; trace := trace s |}).

Definition set_table (t : option Table) : M unit :=
  fun s => (Ok tt, {| disk := {| openable := openable (disk s);
                                   writable := writable (disk s);
                                   headlines_table := t |};
                      session := session s;
                      posts := posts s; trace := trace s |}).

Definition count_post : M nat :=
  fun s => (Ok (posts s), {| disk := disk s; session := session s;
                             posts := S (posts s); trace := trace s |}).

Definition get_state : M State := fun s => (Ok s, s).

(** The state a run starts from. *)
Definition initial (d : Disk) : State :=
  {| disk := d; session := None; posts := 0; trace := [] |}.

(** ** SQLite, as the script uses it *)

(** The handle returned by [sqlite3.connect]; the connection's contents
    live in [session]. *)
Inductive Connection := Conn.

Definition sqlite3_connect : M Connection :=
  log Connect;;
  s <- get_state;;
  if openable (disk s)
  then set_session (Some (headlines_table (disk s)));; ret Conn
  else raise OperationalError.

(** The table the open connection sees; a statement on a missing table
    (or on a closed connection) raises. *)
Definition the_table : M Table :=
  s <- get_state;;
  match session s with
  | Some (Some t) => ret t
  | _ => raise OperationalError
  end.

(** [CREATE TABLE IF NOT EXISTS headlines (...)]: nothing to do when the
    table exists, otherwise the file must be writable. *)
Definition execute_create_table : M unit :=
  log (Execute CreateTable);;
  s <- get_state;;
  match session s with
  | Some (Some _) => ret tt
  | Some None =>
      if writable (disk s)
      then set_session (Some (Some {| rows := []; sqlite_sequence := 0 |}))
      else raise OperationalError
  | None => raise OperationalError
  end.

(** [SELECT COUNT( * ) FROM headlines] followed by [fetchone()[0]]. *)
Definition execute_select_count : M nat :=
  log (Execute SelectCount);;
  t <- the_table;;
  ret (length (rows t)).

(** [SELECT id FROM headlines WHERE title = ?] followed by [fetchone()]:
    the id of the first row with that title, [None] if there is none. *)
Definition execute_select_id (title : str) : M (option Z) :=
  log (Execute (SelectIdByTitle title));;
  t <- the_table;;
  ret (id ∘ snd <$> list_find (fun r => rec_title r = title) (rows t)).

(** [INSERT INTO headlines (title, url) VALUES (?, ?)]: the id comes from
    the AUTOINCREMENT counter, the timestamp from the clock. *)
Definition execute_insert (clock : Z) (title url : str) : M unit :=
  log (Execute (InsertHeadline title url));;
  t <- the_table;;
  s <- get_state;;
  if writable (disk s)
  then
    let i := (sqlite_sequence t + 1)%Z in
    set_session (Some (Some
      {| rows := rows t ++ [{| id := i; rec_title := title;
                               rec_url := url; timestamp := clock |}];
         sqlite_sequence := i |}))
  else raise OperationalError.

(** [conn.commit()] *)
Definition commit (conn : Connection) : M unit :=
  log Commit;;
  s <- get_state;;
  match session s with
  | Some v => set_table v
  | None => raise OperationalError
  end.

(** [conn.close()]: what was not committed is dropped. *)
Definition close (conn : Connection) : M unit :=
  log Close;;
  set_session None.

(** ** setup_database *)

Definition setup_database : M (option Connection) :=
  try_except
    (conn <- sqlite3_connect;;
     execute_create_table;;
     commit conn;;
     ret (Some conn))
    (fun _ => ret None).

(** ** get_telegram_credentials *)

Definition comma : N := 44%N.

Definition get_telegram_credentials (env : Environ) : option str * list str :=
  let token := TELEGRAM_TOKEN env in
  let chat_ids := split comma (default [] (TELEGRAM_CHAT_IDS env)) in
  let chat_ids :=
    strip <$> List.filter (fun cid => truthy (strip cid)) chat_ids in
  if negb (truthy_opt token) || negb (truthy chat_ids)
  then (None, [])
  else (token, chat_ids).

(** A headline: the dict [{'title': ..., 'url': ...}]. *)
Record Headline := { title : str; url : str }.

Section Script.

Variable w : World.

(** ** send_telegram_notification *)

Definition requests_post (url chat_id text : str) : M Z :=
  log (Post url chat_id text);;
  k <- count_post;;
  match telegram w k with
  | PostRaises => raise RequestException
  | PostReturns status => ret status
  end.

Definition sendMessage_url (token : str) : str :=
  lit "https://api.telegram.org/bot" ++ token ++ lit "/sendMessage".

(** The loop [for chat_id in chat_ids], with its counter. *)
Fixpoint for_chat_ids (token message : str) (chat_ids : list str)
    (success_count : nat) : M nat :=
  match chat_ids with
  | [] => ret success_count
  | chat_id :: rest =>
      success_count <-
        try_except
          (status <- requests_post (sendMessage_url token) chat_id message;;
           if decide (status = 200%Z)
           then ret (success_count + 1)
           else ret success_count)
          (fun _ => ret success_count);;
      for_chat_ids token message rest success_count
  end.

(** Returns [(success_count, total_attempts)]. *)
Definition send_telegram_notification (message : str) : M (nat * nat) :=
  match get_telegram_credentials (environ w) with
  | (Some token, chat_ids) =>
      if negb (truthy token) || negb (truthy chat_ids)
      then ret (0, 0)
      else
        let total_attempts := length chat_ids in
        success_count <- for_chat_ids token message chat_ids 0;;
        ret (success_count, total_attempts)
  | (None, _) => ret (0, 0)
  end.

(** ** fetch_headlines *)

Definition selectors : list str :=
  [ lit "a[data-testid=" ++ [34%N] ++ lit "internal-link" ++ [34%N] ++ lit "]";
    lit "a.bbc-1f5kfds";
    lit "a.gs-c-promo-heading";
    lit "a.ssrcss-1mrs5ns-PromoLink" ].

Inductive flow := Continue | Break.

(** One pass through the body of [for a in soup.select(selector)]. *)
Definition consider (a : Tag) (headlines : list Headline)
    : list Headline * flow :=
  let title' := get_text a in
  if negb (truthy title') || (len title' <? 10) || (150 <? len title')
  then (headlines, Continue)
  else
    let url' := default [] (href a) in
    if negb (truthy url') then (headlines, Continue)
    else
      let absolute :=
        if startswith url' (lit "/") then Some (BBC_URL ++ url')
        else if negb (startswith url' (lit "http://")
                      || startswith url' (lit "https://"))
             then None
             else Some url' in
      match absolute with
      | None => (headlines, Continue)
      | Some url' =>
          if existsb (fun h => bool_decide (url h = url')) headlines
          then (headlines, Continue)
          else
            let headlines := headlines ++ [{| title := title'; url := url' |}] in
            if 20 <=? length headlines
            then (headlines, Break)
            else (headlines, Continue)
      end.

Fixpoint for_tags (tags : list Tag) (headlines : list Headline)
    : list Headline :=
  match tags with
  | [] => headlines
  | a :: rest =>
      match consider a headlines with
      | (headlines, Break) => headlines
      | (headlines, Continue) => for_tags rest headlines
      end
  end.

Definition soup_select (soup : Soup) (selector : str) : M (list Tag) :=
  log (Select selector);;
  ret (soup selector).

(** The loop [for selector in selectors]. *)
Fixpoint for_selectors (soup : Soup) (sels : list str)
    (headlines : list Headline) : M (list Headline) :=
  match sels with
  | [] => ret headlines
  | selector :: rest =>
      if truthy headlines then ret headlines
      else
        tags <- soup_select soup selector;;
        for_selectors soup rest (for_tags tags headlines)
  end.

Definition requests_get (url : str) : M Response :=
  log (Get url);;
  match bbc w with
  | GetRaises => raise RequestException
  | GetReturns r => ret r
  end.

(** [response.raise_for_status()]: 4xx and 5xx raise. *)
Definition raise_for_status (r : Response) : M unit :=
  if bool_decide (400 ≤ status_code r < 600)%Z then raise HTTPError else ret tt.

Definition BeautifulSoup (r : Response) : M Soup :=
  match parsed r with
  | Some soup => ret soup
  | None => raise ParserError
  end.

Definition fetch_headlines : M (list Headline) :=
  try_except
    (response <- requests_get BBC_URL;;
     raise_for_status response;;
     soup <- BeautifulSoup response;;
     headlines <- for_selectors soup selectors [];;
     ret headlines)
    (fun _ => ret []).

(** ** save_headlines *)

(** The loop [for item in headlines], with the list it builds. *)
Fixpoint for_items (items : list Headline) (new_headlines : list Headline)
    : M (list Headline) :=
  match items with
  | [] => ret new_headlines
  | item :: rest =>
      found <- execute_select_id (title item);;
      match found with
      | Some _ => for_items rest new_headlines
      | None =>
          execute_insert (now w) (title item) (url item);;
          for_items rest (new_headlines ++ [item])
      end
  end.

Definition save_headlines (conn : Connection) (headlines : list Headline)
    : M (list Headline) :=
  if negb (truthy headlines) then ret []
  else
    new_headlines <- for_items headlines [];;
    commit conn;;
    ret new_headlines.

(** ** send_test_notification *)

Definition test_message : str :=
  [128225%N] ++ lit " <b>BBC Headline Notifier - Connection Successful</b>"
  ++ nl ++ nl
  ++ lit "Your notification service is now active and ready to deliver the latest BBC headlines."
  ++ nl
  ++ lit "Next update: When new headlines are published."
  ++ nl ++ nl
  ++ lit "<i>This is an automated message. No action is required.</i>".

Definition send_test_notification : M unit :=
  _ <- send_telegram_notification test_message;;
  ret tt.

(** ** is_first_run *)

Definition is_first_run : M bool :=
  try_finally
    (try_except
       (conn <- sqlite3_connect;;
        count <- execute_select_count;;
        ret (count =? 0))
       (fun _ => ret true))
    (s <- get_state;;
     (* if 'conn' in locals(): the connection was opened *)
     if bool_decide (is_Some (session s)) then close Conn else ret tt).

(** ** main *)

(** The text built for the new headlines: the loop over
    [enumerate(new_headlines[:5], 1)]. *)
Definition shown_title (item : Headline) : str :=
  if 80 <? len (title item)
  then take 77 (title item) ++ lit "..."
  else title item.

Definition entry (idx : nat) (item : Headline) : str :=
  str_of_nat idx ++ lit ". <b>" ++ shown_title item ++ lit "</b>" ++ nl
  ++ lit "<a href='" ++ url item ++ lit "'>Read more " ++ [8594%N]
  ++ lit "</a>" ++ nl ++ nl.

Definition message_header : str :=
  lit "<b>" ++ [128240%N] ++ lit " Latest BBC Headlines</b>" ++ nl ++ nl.

Fixpoint for_enumerate (idx : nat) (items : list Headline) (message : str)
    : str :=
  match items with
  | [] => message
  | item :: rest => for_enumerate (S idx) rest (message ++ entry idx item)
  end.

Definition headline_message (new_headlines : list Headline) : str :=
  for_enumerate 1 (take 5 new_headlines) message_header.

(** The body of the [try] block of [main]. *)
Definition main_try (conn : Connection) (token : option str)
    (chat_ids : list str) : M unit :=
  headlines <- fetch_headlines;;
  if negb (truthy headlines) then ret tt
  else
    new_headlines <- save_headlines conn headlines;;
    if truthy new_headlines
    then
      if truthy_opt token && truthy chat_ids
      then
        _ <- send_telegram_notification (headline_message new_headlines);;
        ret tt
      else ret tt
    else ret tt.

Definition main : M unit :=
  let '(token, chat_ids) := get_telegram_credentials (environ w) in
  (if negb (truthy_opt token) || negb (truthy chat_ids)
   then ret tt
   else
     first <- is_first_run;;
     if first then send_test_notification else ret tt);;
  conn <- setup_database;;
  match conn with
  | None => ret tt
  | Some conn =>
      try_finally
        (try_except (main_try conn token chat_ids) (fun _ => ret tt))
        (close conn)
  end.

End Script.

(** The exit status of the interpreter: 0 when [main] returns, 1 when an
    exception escapes it. *)
Definition exit_code (r : Result unit) : Z :=
  match r with
  | Ok _ => 0
  | Raise _ => 1
  end.

(** A whole run from a given database file. *)
Definition run (w : World) (d : Disk) : Result unit * State :=
  main w (initial d).

(** ** print_status, display_headlines

    What these two functions hand to [print]; the colour codes of colorama
    are taken as given, and so is the rendering of the table. *)

Record Colorama := {
  Fore_GREEN : str;
  Fore_RED : str;
  Fore_YELLOW : str;
  Fore_CYAN : str;
  Fore_BLUE : str;
  Style_RESET_ALL : str
}.

(** The PrettyTable as [display_headlines] fills it. *)
Record PrettyTable := {
  field_names : list str;
  align : list (str * str);
  max_width : option nat;
  table_rows : list (list str)
}.

(** One call of [print]: a text or the table. *)
Inductive Printed :=
| Text (s : str)
| Rendered (t : PrettyTable).

Section Presentation.

Variable c : Colorama.

(** The line [print_status] prints. *)
Definition print_status (message status_type : str) : str :=
  if decide (status_type = lit "success")
  then Fore_GREEN c ++ lit "[" ++ [10003%N] ++ lit "] " ++ message
       ++ Style_RESET_ALL c
  else if decide (status_type = lit "error")
  then Fore_RED c ++ lit "[" ++ [10007%N] ++ lit "] " ++ message
       ++ Style_RESET_ALL c
  else if decide (status_type = lit "warning")
  then Fore_YELLOW c ++ lit "[!] " ++ message ++ Style_RESET_ALL c
  else lit "[" ++ [8226%N] ++ lit "] " ++ message.

(** The title as the table shows it: cut to 57 characters and three dots
    when longer than 60. *)
Definition row_title (item : Headline) : str :=
  if 60 <? len (title item)
  then take 57 (title item) ++ lit "..."
  else title item.

(** The link as the table shows it: three dots and the last 27 characters
    when longer than 30. *)
Definition row_url (item : Headline) : str :=
  if 30 <? len (url item)
  then lit "..." ++ drop (len (url item) - 27) (url item)
  else url item.

(** The loop over [enumerate(headlines[:15], 1)]: the rows added so far
    and the variable [title], which the loop body assigns. *)
Fixpoint for_rows (idx : nat) (items : list Headline)
    (rows' : list (list str)) (title' : str) : list (list str) * str :=
  match items with
  | [] => (rows', title')
  | item :: rest =>
      let title' := row_title item in
      let display_url := row_url item in
      for_rows (S idx) rest
        (rows' ++ [[Fore_YELLOW c ++ str_of_nat idx ++ Style_RESET_ALL c;
                    title';
                    Fore_BLUE c ++ display_url ++ Style_RESET_ALL c]])
        title'
  end.

(** The loop over [enumerate(headlines[:5], 1)] that prints the links. *)
Fixpoint for_links (idx : nat) (items : list Headline) : list Printed :=
  match items with
  | [] => []
  | item :: rest =>
      Text (str_of_nat idx ++ lit ". " ++ url item) :: for_links (S idx) rest
  end.

Definition bar : str := [9473%N; 9473%N; 9473%N; 9473%N].

Definition display_headlines (headlines : list Headline) (title' : str)
    : list Printed :=
  if negb (truthy headlines)
  then [Text (print_status (lit "No headlines to display.") (lit "warning"))]
  else
    let '(rows', title') := for_rows 1 (take 15 headlines) [] title' in
    let table :=
      {| field_names :=
           [Fore_CYAN c ++ lit "#" ++ Style_RESET_ALL c;
            Fore_CYAN c ++ lit "Headline" ++ Style_RESET_ALL c;
            Fore_CYAN c ++ lit "Link" ++ Style_RESET_ALL c];
         align := [(lit "Headline", lit "l")];
         max_width := Some 120;
         table_rows := rows' |} in
    [Text (nl ++ Fore_CYAN c ++ [9487%N] ++ bar ++ lit " " ++ title'
           ++ lit " " ++ bar ++ [9491%N] ++ Style_RESET_ALL c);
     Rendered table;
     Text (Fore_CYAN c ++ [9495%N] ++ bar ++ lit " "
           ++ str_of_nat (length headlines) ++ lit " headlines found "
           ++ bar ++ [9499%N] ++ Style_RESET_ALL c ++ nl)]
    ++ (if 0 <? length headlines
        then
          [Text (Fore_YELLOW c ++ lit "Full article links:"
                 ++ Style_RESET_ALL c)]
          ++ for_links 1 (take 5 headlines)
          ++ (if 5 <? length headlines
              then [Text (lit "... and "
                          ++ str_of_nat (length headlines - 5)
                          ++ lit " more")]
              else [])
          ++ [Text []]
        else []).

End Presentation.

(** * Specification vocabulary *)

(** What every accepted headline satisfies. *)
Definition well_formed (h : Headline) : Prop :=
  10 <= len (title h) <= 150 /\
  (lit "http://" `prefix_of` url h \/ lit "https://" `prefix_of` url h).

(** A headline made from the element [a]: its text, and its link either
    as it stands or made absolute. *)
Definition made_from (a : Tag) (h : Headline) : Prop :=
  title h = get_text a /\
  exists link, href a = Some link /\
    (url h = link \/ url h = BBC_URL ++ link).

(** An element the loop body always skips. *)
Definition rejected (a : Tag) : Prop :=
  len (get_text a) < 10 \/ 150 < len (get_text a) \/
  href a = None \/ href a = Some [] \/
  exists link, href a = Some link /\
    startswith link (lit "/") = false /\
    startswith link (lit "http://") = false /\
    startswith link (lit "https://") = false.

(** The page could not be fetched or parsed. *)
Definition fetch_failed (w : World) : Prop :=
  match bbc w with
  | GetRaises => True
  | GetReturns r => (400 <= status_code r < 600)%Z \/ parsed r = None
  end.

Global Instance PostOutcome_eq_dec : EqDecision PostOutcome.
Proof. solve_decision. Defined.

(** The state after the POST requests [evs] have been made. *)
Definition posted (evs : list Event) (s : State) : State :=
  {| disk := disk s; session := session s;
     posts := length evs + posts s; trace := trace s ++ evs |}.

(** The answers of the Telegram API to the [n] requests that follow the
    first [k] of the run. *)
Definition answers (w : World) (k n : nat) : list PostOutcome :=
  telegram w <$> seq k n.

(** How many of the answers are HTTP 200. *)
Definition delivered (outs : list PostOutcome) : nat :=
  length (filter (fun o => o = PostReturns 200) outs).

(** The requests of one notification: one per recipient, in order. *)
Definition requests (token message : str) (chat_ids : list str) : list Event :=
  (fun chat_id => Post (sendMessage_url token) chat_id message) <$> chat_ids.

(** ** The store, in the words of its contract *)

(** A record with this title exists. *)
Definition known (t : Table) (ttl : str) : Prop :=
  ttl ∈ rec_title <$> rows t.

Global Instance known_dec t ttl : Decision (known t ttl).
Proof. unfold known. apply _. Defined.

(** The table after one insert. *)
Definition with_record (clock : Z) (t : Table) (c : Headline) : Table :=
  {| rows := rows t ++ [{| id := sqlite_sequence t + 1;
                           rec_title := title c;
                           rec_url := url c;
                           timestamp := clock |}];
     sqlite_sequence := sqlite_sequence t + 1 |}.

(** [saveNew]: for each candidate, in input order, check whether a record
    with the same title exists; if not, insert one and include the
    candidate in the returned sequence. *)
Fixpoint saveNew (clock : Z) (t : Table) (candidates : list Headline)
    : Table * list Headline :=
  match candidates with
  | [] => (t, [])
  | c :: rest =>
      if decide (known t (title c)) then saveNew clock t rest
      else
        let '(t', new) := saveNew clock (with_record clock t c) rest in
        (t', c :: new)
  end.

(** The statements [saveNew] stands for. *)
Fixpoint save_queries (clock : Z) (t : Table) (candidates : list Headline)
    : list Event :=
  match candidates with
  | [] => []
  | c :: rest =>
      if decide (known t (title c))
      then Execute (SelectIdByTitle (title c)) :: save_queries clock t rest
      else Execute (SelectIdByTitle (title c))
           :: Execute (InsertHeadline (title c) (url c))
           :: save_queries clock (with_record clock t c) rest
  end.

(** The open connection sees the table [t]. *)
Definition viewing (t : Table) (s : State) : State :=
  {| disk := disk s; session := Some (Some t);
     posts := posts s; trace := trace s |}.

(** The connection has been closed. *)
Definition viewing_none (s : State) : State :=
  {| disk := disk s; session := None; posts := posts s; trace := trace s |}.

(** The open connection sees the table [t] and has committed it. *)
Definition committed (t : Table) (s : State) : State :=
  {| disk := {| openable := openable (disk s);
                writable := writable (disk s);
                headlines_table := Some t |};
     session := Some (Some t);
     posts := posts s; trace := trace s |}.

(** The table [t] is what the file holds: it has been committed. *)
Definition on_file (t : Table) (s : State) : Prop :=
  headlines_table (disk s) = Some t.

(** How many records carry the title. *)
Definition records_titled (t : Table) (ttl : str) : nat :=
  length (filter (fun r => rec_title r = ttl) (rows t)).

(** Calls of [save_headlines] one after the other on one connection. *)
Fixpoint save_each (w : World) (conn : Connection)
    (batches : list (list Headline)) : M (list (list Headline)) :=
  match batches with
  | [] => ret []
  | hs :: rest =>
      new <- save_headlines w conn hs;;
      news <- save_each w conn rest;;
      ret (new :: news)
  end.

(** ** The run, in the words of the orchestrator's contract *)

(** The records the file holds: none when there is no table. *)
Definition records (d : Disk) : list SeenRecord :=
  from_option rows [] (headlines_table d).

(** The first-run check cannot count the records: the file cannot be
    opened or the table does not exist. *)
Definition uncountable (d : Disk) : Prop :=
  openable d = false \/ headlines_table d = None.

(** The calls the first-run check makes. *)
Definition check_events (d : Disk) : list Event :=
  if openable d then [Connect; Execute SelectCount; Close] else [Connect].

(** Store initialization fails: the file cannot be opened, or the table is
    missing and cannot be created. *)
Definition init_fails (d : Disk) : Prop :=
  openable d = false \/ (headlines_table d = None /\ writable d = false).

(** The calls of a failed store initialization. *)
Definition failed_init_events (d : Disk) : list Event :=
  if openable d then [Connect; Execute CreateTable] else [Connect].

(** The table store initialization leaves: the one found, or a new one. *)
Definition initial_table (d : Disk) : Table :=
  default {| rows := []; sqlite_sequence := 0 |} (headlines_table d).

(** A request that carries the given text. *)
Definition is_post_of (text : str) (e : Event) : Prop :=
  match e with
  | Post _ _ t => t = text
  | _ => False
  end.

(** A call of the first-run check: it only opens, counts and closes. *)
Definition is_check (e : Event) : Prop :=
  e = Connect \/ e = Execute SelectCount \/ e = Close.

(** A call that fetches, saves or notifies about headlines: a request to
    the site, a rule consulted, a lookup or an insert of a title, a
    commit, or a Telegram request with a text other than the bootstrap
    message. *)
Definition about_headlines (e : Event) : Prop :=
  match e with
  | Get _ | Select _ | Commit => True
  | Execute (SelectIdByTitle _) | Execute (InsertHeadline _ _) => True
  | Post _ _ text => text <> test_message
  | _ => False
  end.

(** Every bootstrap request in the trace comes after the store has been
    initialized. *)
Definition bootstrap_follows_init (tr : list Event) : Prop :=
  forall before e after,
    tr = before ++ e :: after ->
    is_post_of test_message e ->
    Execute CreateTable ∈ before /\ Commit ∈ before.

(** The check reports a first run. *)
Definition first_run (d : Disk) : bool :=
  match (if openable d then headlines_table d else None) with
  | Some t => length (rows t) =? 0
  | None => true
  end.

(** The state in which [main] reaches store initialization: with usable
    credentials the first-run check has been made and, on a first run, the
    bootstrap message has gone to every recipient. *)
Definition before_init (w : World) (st : State) : State :=
  match get_telegram_credentials (environ w) with
  | (Some token, chat_ids) =>
      if first_run (disk st)
      then posted (requests token test_message chat_ids)
                  (emit (check_events (disk st)) st)
      else emit (check_events (disk st)) st
  | (None, _) => st
  end.

(** The computation always returns: no exception escapes it. *)
Definition returns {A} (m : M A) : Prop :=
  forall s, exists a s', m s = (Ok a, s').

(** Whatever the computation does, every call it makes satisfies [P]. *)
Definition emits (P : Event -> Prop) {A} (m : M A) : Prop :=
  forall s, exists evs, trace (m s).2 = trace s ++ evs /\ Forall P evs.

(** ** The table on the console *)

(** The row [display_headlines] adds for the item shown at position
    [idx]. *)
Definition table_row (c : Colorama) (idx : nat) (item : Headline) : list str :=
  [Fore_YELLOW c ++ str_of_nat idx ++ Style_RESET_ALL c;
   row_title item;
   Fore_BLUE c ++ row_url item ++ Style_RESET_ALL c].

(** The banner printed above the table, around the text [t]. *)
Definition banner (c : Colorama) (t : str) : str :=
  nl ++ Fore_CYAN c ++ [9487%N] ++ bar ++ lit " " ++ t
  ++ lit " " ++ bar ++ [9491%N] ++ Style_RESET_ALL c.

(** ** Recipient lists *)

(** A usable chat id: not empty, without a comma, without white space at
    either end. *)
Definition clean_id (cid : str) : Prop :=
  cid <> [] /\
  (comma ∉ cid) /\
  (forall x, head cid = Some x -> isspace x = false) /\
  (forall x, last cid = Some x -> isspace x = false).

(** [sep.join(fields)] *)
Fixpoint join (sep : N) (fields : list str) : str :=
  match fields with
  | [] => []
  | [f] => f
  | f :: rest => f ++ sep :: join sep rest
  end.

(** The field is the chat id with white space around it. *)
Definition padded (field cid : str) : Prop :=
  exists l r,
    field = l ++ cid ++ r /\
    Forall (fun x => isspace x = true) l /\
    Forall (fun x => isspace x = true) r.

(** ** Row ids *)

(** The ids of the table are distinct and none exceeds the AUTOINCREMENT
    counter. *)
Definition well_numbered (t : Table) : Prop :=
  NoDup (id <$> rows t) /\
  Forall (fun r => (id r <= sqlite_sequence t)%Z) (rows t).

(** ** Whole runs *)

(** A request to the Telegram API. *)
Definition is_post (e : Event) : Prop :=
  match e with
  | Post _ _ _ => True
  | _ => False
  end.

Global Instance is_post_dec e : Decision (is_post e).
Proof. destruct e; simpl; apply _. Defined.

(** The requests [main] makes for the new headlines: none when there is
    nothing new or the credentials are unusable. *)
Definition headline_requests (w : World) (new : list Headline) : list Event :=
  match new, get_telegram_credentials (environ w) with
  | _ :: _, (Some token, chat_ids) =>
      requests token (headline_message new) chat_ids
  | _, _ => []
  end.

(** The state in which [main] enters its guarded part after a successful
    store initialization. *)
Definition after_init (w : World) (d : Disk) : State :=
  emit [Connect; Execute CreateTable; Commit]
       (committed (initial_table d) (before_init w (initial d))).

(** The state a run ends in when the store is initialized and writable and
    the page yields the headlines [hs] after the rules [cs] have been
    consulted. *)
Definition finished (w : World) (d : Disk) (hs : list Headline)
    (cs : list str) : State :=
  emit [Close]
    (viewing_none
       (posted (headline_requests w (saveNew (now w) (initial_table d) hs).2)
          match hs with
          | [] => emit (Get BBC_URL :: (Select <$> cs)) (after_init w d)
          | _ :: _ =>
              emit (Get BBC_URL :: (Select <$> cs)
                    ++ save_queries (now w) (initial_table d) hs ++ [Commit])
                   (committed (saveNew (now w) (initial_table d) hs).1
                      (after_init w d))
          end)).

(** * Sample data *)

Module Sample.

Definition rule1 : str :=
  lit "a[data-testid=" ++ [34%N] ++ lit "internal-link" ++ [34%N] ++ lit "]".
Definition rule2 : str := lit "a.bbc-1f5kfds".

Definition anchor (text link : string) : Tag :=
  {| get_text := lit text; href := Some (lit link) |}.

Definition budget := anchor "Budget vote delayed again" "/news/budget".
Definition storm := anchor "Storm closes northern ports" "https://www.bbc.com/news/storm".
Definition short := anchor "Live" "/live".
Definition no_link : Tag :=
  {| get_text := lit "Anchor without a link attribute"; href := None |}.
Definition mailto := anchor "Write to the newsroom today" "mailto:news@example.org".
Definition budget_again := anchor "Budget vote: what happens next" "/news/budget".
Definition cup := anchor "Cup final goes to penalties" "/sport/cup".

(** A page on which both the first and the second rule match. *)
Definition both_rules : Soup := fun selector =>
  if decide (selector = rule1)
  then [budget; short; storm; no_link; mailto; budget_again]
  else if decide (selector = rule2) then [cup] else [].

(** A page on which the first rule matches only elements that are
    rejected. *)
Definition first_rule_rejected : Soup := fun selector =>
  if decide (selector = rule1) then [short; no_link; mailto]
  else if decide (selector = rule2) then [cup; storm] else [].

Definition serves (soup : Soup) : GetOutcome :=
  GetReturns {| status_code := 200; parsed := Some soup |}.

Definition no_credentials : Environ :=
  {| TELEGRAM_TOKEN := None; TELEGRAM_CHAT_IDS := None |}.

Definition world (env : Environ) (page : GetOutcome)
    (answers : nat -> PostOutcome) : World :=
  {| environ := env; bbc := page; telegram := answers; now := 1700000000 |}.

Definition all_ok : nat -> PostOutcome := fun _ => PostReturns 200.

Definition fresh : Disk :=
  {| openable := true; writable := true; headlines_table := None |}.

Definition headline (text link : string) : Headline :=
  {| title := lit text; url := lit link |}.

Definition h_budget :=
  headline "Budget vote delayed again" "https://www.bbc.com/news/budget".
Definition h_storm :=
  headline "Storm closes northern ports" "https://www.bbc.com/news/storm".
(** The title of [h_budget] under another link. *)
Definition h_budget_live :=
  headline "Budget vote delayed again" "https://www.bbc.com/news/live/budget".
Definition h_cup :=
  headline "Cup final goes to penalties" "https://www.bbc.com/sport/cup".

(** A table that already holds the storm headline. *)
Definition seen_storm : Table :=
  {| rows := [{| id := 1;
                 rec_title := lit "Storm closes northern ports";
                 rec_url := lit "https://www.bbc.com/news/storm";
                 timestamp := 1690000000 |}];
     sqlite_sequence := 1 |}.

(** A writable file holding [t], with a connection open on it. *)
Definition opened (t : Table) : State :=
  viewing t (initial {| openable := true; writable := true;
                        headlines_table := Some t |}).

(** A file that cannot be opened. *)
Definition unopenable : Disk :=
  {| openable := false; writable := false; headlines_table := None |}.

(** A file without the table that cannot be written. *)
Definition read_only : Disk :=
  {| openable := true; writable := false; headlines_table := None |}.

Definition three_recipients : Environ :=
  {| TELEGRAM_TOKEN := Some (lit "123:abc");
     TELEGRAM_CHAT_IDS := Some (lit " 111, 222 ,,333") |}.

(** A page with seven acceptable elements under the first rule; the
    title of the second has 115 characters. *)
Definition seven : Soup := fun selector =>
  if decide (selector = rule1)
  then [ budget;
         anchor "Parliament votes to extend the emergency budget measures for another three months after a marathon late-night session"
                "/news/parliament";
         storm;
         anchor "Cup final goes to penalties" "/sport/cup";
         anchor "Rail strike called off at the last minute" "/news/rail";
         anchor "New telescope returns its first images" "/news/telescope";
         anchor "Harvest festival draws record crowds" "/news/harvest" ]
  else [].

(** A writable file holding [t], not yet opened. *)
Definition closed (t : Table) : State :=
  initial {| openable := true; writable := true; headlines_table := Some t |}.

(** A file holding [t] that cannot be written, with a connection open on
    it. *)
Definition opened_read_only (t : Table) : State :=
  viewing t (initial {| openable := true; writable := false;
                        headlines_table := Some t |}).

(** A file that holds the storm headline and cannot be written. *)
Definition stocked_read_only : Disk :=
  {| openable := true; writable := false;
     headlines_table := Some seen_storm |}.

(** The element for story number [n]. *)
Definition numbered (n : nat) : Tag :=
  {| get_text := lit "Story number " ++ str_of_nat n;
     href := Some (lit "/news/" ++ str_of_nat n) |}.

(** Twenty acceptable elements with distinct links. *)
Definition twenty : list Tag := numbered <$> seq 0 20.

(** A page on which every rule matches only elements that are rejected. *)
Definition barren : Soup := fun _ => [short; no_link; mailto].

(** The ANSI codes of colorama. *)
Definition ansi : Colorama :=
  {| Fore_GREEN := [27%N] ++ lit "[32m";
     Fore_RED := [27%N] ++ lit "[31m";
     Fore_YELLOW := [27%N] ++ lit "[33m";
     Fore_CYAN := [27%N] ++ lit "[36m";
     Fore_BLUE := [27%N] ++ lit "[34m";
     Style_RESET_ALL := [27%N] ++ lit "[0m" |}.

(** Three recipients, a site that is down, a Telegram API that answers. *)
Definition notifying : World := world three_recipients GetRaises all_ok.

(** Three recipients, the page [seven], a Telegram API that answers. *)
Definition busy : World := world three_recipients (serves seven) all_ok.

(** No credentials, the page [seven]. *)
Definition silent : World := world no_credentials (serves seven) all_ok.

(** The second request of the run fails, the others succeed. *)
Definition second_fails : nat -> PostOutcome := fun k =>
  if decide (k = 1) then PostRaises else PostReturns 200.

(** The second request is refused with a status, the others succeed. *)
Definition second_refused : nat -> PostOutcome := fun k =>
  if decide (k = 1) then PostReturns 403 else PostReturns 200.

End Sample.

(** * Properties *)

(** ** Strings *)

Lemma startswith_prefix (s p : str) :
  startswith s p = true <-> p `prefix_of` s.
Proof.
  revert s; induction p as [|c p IH]; intros s; simpl.
  - split; [intros _; apply prefix_nil | done].
  - destruct s as [|d s].
    + split; [done | intros H; by apply prefix_nil_not in H].
    + destruct (decide (c = d)) as [->|Hne].
      * rewrite IH. split; [apply prefix_cons | apply prefix_cons_inv_2].
      * split; [done | intros H; by apply prefix_cons_inv_1 in H].
Qed.

Lemma truthy_true {A} (l : list A) : truthy l = true <-> l <> [].
Proof. destruct l; simpl; split; congruence. Qed.

(** ** The extractor *)

(** What [consider] does, case by case: the element is skipped, or one
    headline is appended. *)
Lemma consider_cases (a : Tag) (hs : list Headline) :
  (consider a hs = (hs, Continue)) \/
  (exists h,
     well_formed h /\ made_from a h /\ (url h ∉ url <$> hs) /\
     consider a hs =
       (hs ++ [h], if 20 <=? length (hs ++ [h]) then Break else Continue)).
Proof.
  unfold consider.
  destruct (negb (truthy (get_text a)) || (len (get_text a) <? 10)
            || (150 <? len (get_text a))) eqn:Hlen; [by left|].
  apply orb_false_elim in Hlen as [Hlen H150].
  apply orb_false_elim in Hlen as [_ H10].
  apply Nat.ltb_ge in H10, H150.
  destruct (href a) as [link|] eqn:Hhref; cbn -[Nat.leb Nat.ltb lit BBC_URL app]; [|by left].
  destruct (truthy link) eqn:Hlink; cbn -[Nat.leb Nat.ltb lit BBC_URL app]; [|by left].
  assert (Hsplit : forall u,
            (lit "http://" `prefix_of` u \/ lit "https://" `prefix_of` u) ->
            (u = link \/ u = BBC_URL ++ link) ->
            (if existsb (fun h => bool_decide (url h = u)) hs
             then (hs, Continue)
             else
               if 20 <=? length (hs ++ [{| title := get_text a; url := u |}])
               then (hs ++ [{| title := get_text a; url := u |}], Break)
               else (hs ++ [{| title := get_text a; url := u |}], Continue))
            = (hs, Continue) \/
            exists h, well_formed h /\ made_from a h /\ (url h ∉ url <$> hs) /\
              (if existsb (fun h => bool_decide (url h = u)) hs
               then (hs, Continue)
               else
                 if 20 <=? length (hs ++ [{| title := get_text a; url := u |}])
                 then (hs ++ [{| title := get_text a; url := u |}], Break)
                 else (hs ++ [{| title := get_text a; url := u |}], Continue))
              = (hs ++ [h],
                 if 20 <=? length (hs ++ [h]) then Break else Continue)).
  { intros u Hscheme Hu.
    destruct (existsb _ hs) eqn:Hdup; [by left|].
    right. exists {| title := get_text a; url := u |}.
    split; [by split|]. split; [split; [done | by exists link]|].
    split.
    - simpl. intros Hin. apply list_elem_of_fmap in Hin as (h & Hh & Hin).
      assert (existsb (fun h => bool_decide (url h = u)) hs = true) as Hex.
      { apply existsb_exists. exists h. split; [by apply list_elem_of_In|].
        by apply bool_decide_eq_true. }
      congruence.
    - by destruct (20 <=? _). }
  destruct (startswith link (lit "/")) eqn:Hrel.
  { apply Hsplit; [|by right]. right. by apply startswith_prefix. }
  destruct (startswith link (lit "http://")) eqn:H1; cbn -[Nat.leb Nat.ltb lit BBC_URL app].
  { apply Hsplit; [|by left]. left. by apply startswith_prefix. }
  destruct (startswith link (lit "https://")) eqn:H2; cbn -[Nat.leb Nat.ltb lit BBC_URL app]; [|by left].
  apply Hsplit; [|by left]. right. by apply startswith_prefix.
Qed.

(** The invariant of the inner loop: distinct links, well-formed
    headlines, and the cap. *)
Lemma for_tags_invariant (tags : list Tag) (hs : list Headline) :
  NoDup (url <$> hs) -> Forall well_formed hs -> length hs < 20 ->
  NoDup (url <$> for_tags tags hs) /\
  Forall well_formed (for_tags tags hs) /\
  length (for_tags tags hs) <= 20.
Proof.
  revert hs; induction tags as [|a tags IH]; intros hs Hnd Hwf Hlen; simpl.
  - repeat split; [done..|lia].
  - destruct (consider_cases a hs) as [H|(h & Hh & _ & Hfresh & H)];
      rewrite H; [by apply IH|].
    assert (NoDup (url <$> hs ++ [h])) as Hnd'.
    { rewrite fmap_app. apply NoDup_app. split; [done|].
      split; [|apply NoDup_singleton].
      intros u Hu Hin. apply list_elem_of_singleton in Hin. by subst. }
    assert (Forall well_formed (hs ++ [h])) as Hwf'.
    { apply Forall_app. split; [done|]. by apply Forall_singleton. }
    destruct (20 <=? length (hs ++ [h])) eqn:Hle.
    + repeat split; [done..|]. rewrite length_app; simpl; lia.
    + apply IH; [done..|]. by apply Nat.leb_gt in Hle.
Qed.

(** Every headline of the inner loop's result was there before or was made
    from one of the elements. *)
Lemma for_tags_provenance (tags : list Tag) (hs : list Headline) :
  Forall (fun h => h ∈ hs \/ exists a, a ∈ tags /\ made_from a h)
         (for_tags tags hs).
Proof.
  revert hs; induction tags as [|a tags IH]; intros hs; simpl.
  - apply Forall_forall. auto.
  - destruct (consider_cases a hs) as [H|(h & _ & Hmade & _ & H)]; rewrite H.
    + eapply Forall_impl; [apply IH|]. intros h [?|(b & ? & ?)]; [by left|].
      right. exists b. split; [by right|done].
    + assert (Forall (fun h' => h' ∈ hs \/
                exists b, b ∈ a :: tags /\ made_from b h') (hs ++ [h])) as Hnow.
      { apply Forall_app. split.
        - apply Forall_forall. auto.
        - apply Forall_singleton. right. exists a. split; [by left|done]. }
      destruct (20 <=? length (hs ++ [h])); [done|].
      eapply Forall_impl; [apply IH|]. intros h' [Hin|(b & ? & ?)].
      * by apply (proj1 (Forall_forall _ _) Hnow).
      * right. exists b. split; [by right|done].
Qed.

Lemma consider_rejected (a : Tag) (hs : list Headline) :
  rejected a -> consider a hs = (hs, Continue).
Proof.
  unfold rejected, consider. intros [H|[H|[H|[H|(link & H & H0 & H1 & H2)]]]].
  - apply Nat.ltb_lt in H. rewrite H. by rewrite orb_true_r.
  - apply Nat.ltb_lt in H. rewrite H. by rewrite orb_true_r.
  - rewrite H. cbn -[Nat.leb Nat.ltb]. by destruct (_ || _).
  - rewrite H. cbn -[Nat.leb Nat.ltb]. by destruct (_ || _).
  - rewrite H. cbn -[Nat.leb Nat.ltb lit BBC_URL app].
    rewrite H0, H1, H2. cbn -[Nat.leb Nat.ltb].
    destruct (_ || _); [done|]. by destruct (truthy link).
Qed.

Lemma for_tags_skip (a : Tag) (before after : list Tag) (hs : list Headline) :
  rejected a ->
  for_tags (before ++ a :: after) hs = for_tags (before ++ after) hs.
Proof.
  intros Hrej. revert hs; induction before as [|b before IH]; intros hs; simpl.
  - by rewrite consider_rejected.
  - destruct (consider b hs) as [hs' [|]]; [apply IH|done].
Qed.

(** ** Running the monad *)

Lemma disk_emit evs s : disk (emit evs s) = disk s.
Proof. done. Qed.

Lemma session_emit evs s : session (emit evs s) = session s.
Proof. done. Qed.

Lemma posts_emit evs s : posts (emit evs s) = posts s.
Proof. done. Qed.

Lemma trace_emit evs s : trace (emit evs s) = trace s ++ evs.
Proof. done. Qed.

(** Unfold the plumbing of [M] and reduce what has become a redex. *)
Ltac exec :=
  cbv beta iota delta
    [bind ret raise try_except try_finally log get_state set_session
     set_table count_post];
  rewrite ?disk_emit, ?session_emit, ?posts_emit, ?trace_emit.

(** ** Traces *)

Lemma emit_nil (s : State) : emit [] s = s.
Proof. destruct s. unfold emit; simpl. by rewrite app_nil_r. Qed.

Lemma emit_emit (a b : list Event) (s : State) :
  emit b (emit a s) = emit (a ++ b) s.
Proof. unfold emit; simpl. by rewrite app_assoc. Qed.

(** The outer loop of the extractor: it returns at once when it already
    holds headlines, consults the rules that accept nothing one after the
    other, and stops with the first rule that accepts something. *)
Lemma for_selectors_truthy soup sels hs st :
  hs <> [] -> for_selectors soup sels hs st = (Ok hs, st).
Proof. intros H. destruct hs; [done|]. by destruct sels. Qed.

Lemma for_selectors_exhausted soup sels st :
  Forall (fun r => for_tags (soup r) [] = []) sels ->
  for_selectors soup sels [] st = (Ok [], emit (Select <$> sels) st).
Proof.
  revert st; induction sels as [|r sels IH]; intros st Hall.
  - by rewrite emit_nil.
  - apply Forall_cons in Hall as [Hr Hall]. simpl.
    unfold soup_select. exec. rewrite Hr, IH by done.
    by rewrite emit_emit.
Qed.

Lemma for_selectors_first soup pre s post st :
  Forall (fun r => for_tags (soup r) [] = []) pre ->
  for_tags (soup s) [] <> [] ->
  for_selectors soup (pre ++ s :: post) [] st =
    (Ok (for_tags (soup s) []), emit (Select <$> pre ++ [s]) st).
Proof.
  revert st; induction pre as [|r pre IH]; intros st Hall Hs.
  - simpl. unfold soup_select. exec.
    by rewrite for_selectors_truthy.
  - apply Forall_cons in Hall as [Hr Hall]. simpl.
    unfold soup_select. exec. rewrite Hr, IH by done.
    by rewrite emit_emit.
Qed.

(** Whatever the page, the outer loop returns, and its result is the
    result of the inner loop on one rule, or empty. *)
Lemma for_selectors_result soup sels st :
  exists hs st',
    for_selectors soup sels [] st = (Ok hs, st') /\
    (hs = [] \/ exists s, s ∈ sels /\ hs = for_tags (soup s) []).
Proof.
  revert st; induction sels as [|r sels IH]; intros st.
  - exists [], st. split; [done|by left].
  - simpl. unfold soup_select. exec.
    destruct (for_tags (soup r) []) as [|h hs] eqn:Hr.
    + destruct (IH (emit [Select r] st)) as (hs' & st' & -> & Hhs).
      exists hs', st'. split; [done|].
      destruct Hhs as [->|(s & Hin & ->)]; [by left|].
      right. exists s. split; [by right|done].
    + rewrite for_selectors_truthy by done.
      exists (h :: hs), (emit [Select r] st). split; [done|].
      right. exists r. split; [by left|done].
Qed.

(** What [fetch_headlines] does, by the answer of the site. *)
Lemma fetch_headlines_run w st :
  fetch_headlines w st =
    match bbc w with
    | GetRaises => (Ok [], emit [Get BBC_URL] st)
    | GetReturns r =>
        if bool_decide (400 <= status_code r < 600)%Z
        then (Ok [], emit [Get BBC_URL] st)
        else
          match parsed r with
          | None => (Ok [], emit [Get BBC_URL] st)
          | Some soup => for_selectors soup selectors [] (emit [Get BBC_URL] st)
          end
    end.
Proof.
  unfold fetch_headlines, requests_get. exec.
  destruct (bbc w) as [|r]; [done|].
  unfold raise_for_status, BeautifulSoup. exec.
  case_bool_decide; [done|].
  destruct (parsed r) as [soup|]; [|done].
  by destruct (for_selectors_result soup selectors (emit [Get BBC_URL] st))
    as (hs & st' & -> & _).
Qed.

(** C1: whatever the site answers, [fetch_headlines] returns at most 20
    headlines, no two of them with the same link, each with a title of 10
    to 150 characters and a link that starts with http:// or https://. *)
Theorem fetch_headlines_bounds w st :
  exists hs st',
    fetch_headlines w st = (Ok hs, st') /\
    length hs <= 20 /\
    NoDup (url <$> hs) /\
    Forall well_formed hs.
Proof.
  assert (Hempty : forall st' : State, exists hs st'',
            (Ok (A:=list Headline) [], st') = (Ok hs, st'') /\ length hs <= 20 /\
            NoDup (url <$> hs) /\ Forall (A:=Headline) well_formed hs).
  { intros st'. exists [], st'. repeat split; simpl; [lia|constructor|constructor]. }
  rewrite fetch_headlines_run.
  destruct (bbc w) as [|r]; [apply Hempty|].
  case_bool_decide; [apply Hempty|].
  destruct (parsed r) as [soup|]; [|apply Hempty].
  destruct (for_selectors_result soup selectors (emit [Get BBC_URL] st))
    as (hs & st' & -> & Hhs).
  exists hs, st'. split; [done|].
  destruct Hhs as [->|(s & _ & ->)].
  - repeat split; simpl; [lia|constructor|constructor].
  - destruct (for_tags_invariant (soup s) []) as (Hnd & Hwf & Hlen);
      simpl; [constructor|constructor|lia|done].
Qed.

(** C2: the rules are tried in order and the first rule that accepts at
    least one element ends the search: when the rules before [s] accept
    nothing (even if they match elements, all rejected) and [s] accepts
    something, the result is exactly what [s] accepts, every headline in
    it is made from an element matched by [s], and the only rules
    consulted are those up to and including [s]. *)
Theorem fetch_headlines_first_rule_wins w st r soup pre s post :
  bbc w = GetReturns r ->
  ~ (400 <= status_code r < 600)%Z ->
  parsed r = Some soup ->
  selectors = pre ++ s :: post ->
  Forall (fun r' => for_tags (soup r') [] = []) pre ->
  for_tags (soup s) [] <> [] ->
  fetch_headlines w st =
    (Ok (for_tags (soup s) []),
     emit (Get BBC_URL :: (Select <$> pre ++ [s])) st) /\
  Forall (fun h => exists a, a ∈ soup s /\ made_from a h)
         (for_tags (soup s) []).
Proof.
  intros Hbbc Hstatus Hparsed Hsels Hpre Hs. split.
  - rewrite fetch_headlines_run, Hbbc, Hparsed, Hsels.
    rewrite bool_decide_eq_false_2 by done.
    rewrite for_selectors_first by done. by rewrite emit_emit.
  - eapply Forall_impl; [apply for_tags_provenance|].
    intros h [Hin|Hmade]; [|done]. by apply not_elem_of_nil in Hin.
Qed.

Lemma fetch_headlines_first_rule_wins_witness :
  let w := Sample.world Sample.no_credentials
             (Sample.serves Sample.first_rule_rejected) Sample.all_ok in
  let st := initial Sample.fresh in
  let r := {| status_code := 200; parsed := Some Sample.first_rule_rejected |} in
  let pre := [Sample.rule1] in
  let s := Sample.rule2 in
  let post := [lit "a.gs-c-promo-heading"; lit "a.ssrcss-1mrs5ns-PromoLink"] in
  bbc w = GetReturns r /\
  ~ (400 <= status_code r < 600)%Z /\
  parsed r = Some Sample.first_rule_rejected /\
  selectors = pre ++ s :: post /\
  Forall (fun r' => for_tags (Sample.first_rule_rejected r') [] = []) pre /\
  for_tags (Sample.first_rule_rejected s) [] <> [] /\
  fetch_headlines w st =
    (Ok (for_tags (Sample.first_rule_rejected s) []),
     emit (Get BBC_URL :: (Select <$> pre ++ [s])) st) /\
  Forall (fun h => exists a, a ∈ Sample.first_rule_rejected s /\ made_from a h)
         (for_tags (Sample.first_rule_rejected s) []).
Proof.
  intros w st r pre s post.
  assert (H1 : bbc w = GetReturns r) by reflexivity.
  assert (H2 : ~ (400 <= status_code r < 600)%Z) by (simpl; lia).
  assert (H3 : parsed r = Some Sample.first_rule_rejected) by reflexivity.
  assert (H4 : selectors = pre ++ s :: post) by reflexivity.
  assert (H5 : Forall
            (fun r' => for_tags (Sample.first_rule_rejected r') [] = []) pre)
    by (repeat constructor).
  assert (H6 : for_tags (Sample.first_rule_rejected s) [] <> [])
    by (vm_compute; discriminate).
  repeat (split; [assumption|]).
  exact (fetch_headlines_first_rule_wins w st r _ pre s post H1 H2 H3 H4 H5 H6).
Defined.

(** C9: [fetch_headlines] always returns and never raises; when the page
    cannot be fetched or parsed it returns the empty list; and an element
    with a defect (no link, an unusable link, a title of the wrong length)
    is skipped without any effect on the other elements. *)
Theorem fetch_headlines_total w st :
  (exists hs st', fetch_headlines w st = (Ok hs, st')) /\
  (fetch_failed w -> (fetch_headlines w st).1 = Ok []) /\
  (forall a before after hs,
     rejected a ->
     for_tags (before ++ a :: after) hs = for_tags (before ++ after) hs).
Proof.
  split; [|split].
  - rewrite fetch_headlines_run.
    destruct (bbc w) as [|r]; [by eauto|].
    case_bool_decide; [by eauto|].
    destruct (parsed r) as [soup|]; [|by eauto].
    destruct (for_selectors_result soup selectors (emit [Get BBC_URL] st))
      as (hs & st' & -> & _). eauto.
  - unfold fetch_failed. rewrite fetch_headlines_run.
    destruct (bbc w) as [|r]; [done|].
    intros [H|H].
    + by rewrite bool_decide_eq_true_2.
    + rewrite H. by case_bool_decide.
  - intros a before after hs Hrej. by apply for_tags_skip.
Qed.

Lemma fetch_headlines_total_witness :
  let down := Sample.world Sample.no_credentials GetRaises Sample.all_ok in
  let st := initial Sample.fresh in
  (exists hs st', fetch_headlines down st = (Ok hs, st')) /\
  fetch_failed down /\
  (fetch_headlines down st).1 = Ok [] /\
  rejected Sample.no_link /\
  for_tags ([Sample.budget] ++ Sample.no_link :: [Sample.storm]) [] =
  for_tags ([Sample.budget] ++ [Sample.storm]) [].
Proof.
  intros down st.
  destruct (fetch_headlines_total down st) as (Hret & Hfail & Hskip).
  assert (Hdown : fetch_failed down) by exact I.
  assert (Hrej : rejected Sample.no_link).
  { right; right; left. reflexivity. }
  split; [exact Hret|].
  split; [exact Hdown|].
  split; [exact (Hfail Hdown)|].
  split; [exact Hrej|].
  exact (Hskip Sample.no_link [Sample.budget] [Sample.storm] [] Hrej).
Defined.

(** The sample page on which both rules match yields the two acceptable
    elements of the first rule, in document order, and nothing of the
    second rule. *)
Example extract_both_rules :
  fetch_headlines
    (Sample.world Sample.no_credentials (Sample.serves Sample.both_rules)
       Sample.all_ok)
    (initial Sample.fresh)
  = (Ok [ {| title := lit "Budget vote delayed again";
             url := lit "https://www.bbc.com/news/budget" |};
          {| title := lit "Storm closes northern ports";
             url := lit "https://www.bbc.com/news/storm" |} ],
     emit [Get BBC_URL; Select Sample.rule1] (initial Sample.fresh)).
Proof. vm_compute. reflexivity. Qed.

(** ** The notifier *)

Lemma posted_nil (s : State) : posted [] s = s.
Proof. destruct s. unfold posted; simpl. by rewrite app_nil_r. Qed.

Lemma posted_cons (e : Event) (evs : list Event) (s : State) :
  posted evs (posted [e] s) = posted (e :: evs) s.
Proof.
  unfold posted; simpl. f_equal; [lia|]. by rewrite <- app_assoc.
Qed.

Lemma delivered_cons (o : PostOutcome) (outs : list PostOutcome) :
  delivered (o :: outs) =
    (if decide (o = PostReturns 200) then 1 else 0) + delivered outs.
Proof.
  unfold delivered. rewrite filter_cons. by destruct (decide _).
Qed.

Lemma get_telegram_credentials_some env token chat_ids :
  get_telegram_credentials env = (Some token, chat_ids) ->
  truthy token = true /\ truthy chat_ids = true.
Proof.
  unfold get_telegram_credentials.
  set (ids := strip <$> _).
  destruct (TELEGRAM_TOKEN env) as [t|]; simpl; [|done].
  destruct (truthy t) eqn:Ht; simpl; [|done].
  destruct (truthy ids) eqn:Hids; simpl; [|done].
  intros [= <- <-]. done.
Qed.

(** The loop over the recipients: every recipient gets its request,
    whatever happened to the earlier ones, and the counter grows by the
    number of 200 answers. *)
Lemma for_chat_ids_run w token message chat_ids n st :
  for_chat_ids w token message chat_ids n st =
    (Ok (n + delivered (answers w (posts st) (length chat_ids))),
     posted (requests token message chat_ids) st).
Proof.
  revert n st; induction chat_ids as [|c chat_ids IH]; intros n st.
  - simpl. unfold ret, delivered. simpl. by rewrite posted_nil, Nat.add_0_r.
  - simpl. unfold requests_post. exec.
    change (answers w (posts st) (S (length chat_ids)))
      with (telegram w (posts st) :: answers w (S (posts st)) (length chat_ids)).
    rewrite delivered_cons, <- posted_cons.
    destruct (telegram w (posts st)) as [|status].
    + by rewrite IH, decide_False.
    + destruct (decide (status = 200%Z)) as [->|Hne]; rewrite IH.
      * by rewrite decide_True, Nat.add_assoc.
      * by rewrite decide_False by congruence.
Qed.

(** One notification with usable credentials. *)
Lemma notify_run w message token chat_ids st :
  get_telegram_credentials (environ w) = (Some token, chat_ids) ->
  send_telegram_notification w message st =
    (Ok (delivered (answers w (posts st) (length chat_ids)), length chat_ids),
     posted (requests token message chat_ids) st).
Proof.
  intros Hcred. unfold send_telegram_notification. rewrite Hcred.
  destruct (get_telegram_credentials_some _ _ _ Hcred) as [Ht Hc].
  rewrite Ht, Hc. cbn [negb orb]. unfold bind.
  by rewrite for_chat_ids_run.
Qed.

(** C5: with usable credentials, [send_telegram_notification] makes one
    request per recipient, in order, whatever the earlier requests did
    (raise or answer with any status), and returns the number of 200
    answers together with the number of recipients. *)
Theorem send_telegram_notification_isolated w message token chat_ids st :
  get_telegram_credentials (environ w) = (Some token, chat_ids) ->
  send_telegram_notification w message st =
    (Ok (delivered (answers w (posts st) (length chat_ids)), length chat_ids),
     posted (requests token message chat_ids) st).
Proof.
  intros Hcred. unfold send_telegram_notification. rewrite Hcred.
  apply get_telegram_credentials_some in Hcred as [-> ->]. simpl.
  exec. by rewrite for_chat_ids_run.
Qed.

Lemma send_telegram_notification_isolated_witness :
  let w := Sample.world Sample.three_recipients GetRaises Sample.second_fails in
  let token := lit "123:abc" in
  let chat_ids := [lit "111"; lit "222"; lit "333"] in
  let st := initial Sample.fresh in
  get_telegram_credentials (environ w) = (Some token, chat_ids) /\
  send_telegram_notification w test_message st =
    (Ok (delivered (answers w (posts st) (length chat_ids)), length chat_ids),
     posted (requests token test_message chat_ids) st).
Proof.
  intros w token chat_ids st.
  assert (H : get_telegram_credentials (environ w) = (Some token, chat_ids))
    by reflexivity.
  split; [exact H|].
  exact (send_telegram_notification_isolated w test_message token chat_ids st H).
Defined.

(** Three recipients, the second request raises: two deliveries out of
    three attempts, and all three requests are made. *)
Example three_recipients_second_raises :
  let w := Sample.world Sample.three_recipients GetRaises Sample.second_fails in
  send_telegram_notification w (lit "hello") (initial Sample.fresh) =
    (Ok (2, 3),
     posted (requests (lit "123:abc") (lit "hello")
               [lit "111"; lit "222"; lit "333"])
            (initial Sample.fresh)).
Proof. vm_compute. reflexivity. Qed.

(** The same with a refusal (status 403) instead of an exception. *)
Example three_recipients_second_refused :
  let w := Sample.world Sample.three_recipients GetRaises Sample.second_refused in
  (send_telegram_notification w (lit "hello") (initial Sample.fresh)).1 =
    Ok (2, 3).
Proof. vm_compute. reflexivity. Qed.

(** ** The store *)

Lemma select_id_found (t : Table) (ttl : str) :
  is_Some (list_find (fun r => rec_title r = ttl) (rows t)) <-> known t ttl.
Proof.
  unfold known. split.
  - intros [[i r] H]. apply list_find_Some in H as (Hi & <- & _).
    apply list_elem_of_fmap. exists r. split; [done|].
    by apply list_elem_of_lookup_2 in Hi.
  - intros H. apply list_elem_of_fmap in H as (r & -> & Hin).
    destruct (list_find _ (rows t)) eqn:Hf; [done|].
    apply list_find_None in Hf.
    by apply (proj1 (Forall_forall _ _) Hf) in Hin.
Qed.

(** The loop of [save_headlines] carries out [saveNew] on the table the
    connection sees. *)
Lemma for_items_run w items acc t st :
  session st = Some (Some t) ->
  writable (disk st) = true ->
  for_items w items acc st =
    (Ok (acc ++ (saveNew (now w) t items).2),
     emit (save_queries (now w) t items)
          (viewing (saveNew (now w) t items).1 st)).
Proof.
  revert acc t st; induction items as [|c items IH]; intros acc t st Hs Hw.
  - simpl. unfold ret. rewrite app_nil_r. f_equal.
    destruct st; unfold emit, viewing; simpl in *. by rewrite Hs, app_nil_r.
  - simpl. unfold execute_select_id, execute_insert, the_table. exec.
    rewrite Hs. exec.
    destruct (decide (known t (title c))) as [Hk|Hk].
    + apply select_id_found in Hk as [[i r] ->]. simpl.
      rewrite (IH acc t) by done.
      f_equal. unfold viewing, emit; simpl. by rewrite <- app_assoc.
    + destruct (list_find _ (rows t)) eqn:Hf.
      { exfalso. apply Hk, select_id_found. by rewrite Hf. }
      simpl. exec. rewrite Hs. exec. rewrite Hw. 
      erewrite (IH (acc ++ [c]) (with_record (now w) t c)); [|done..].
      destruct (saveNew (now w) (with_record (now w) t c) items) as [t' new].
      simpl. rewrite <- app_assoc. simpl.
      unfold viewing, emit; simpl. by rewrite <- !app_assoc.
Qed.

Lemma known_with_record clock t c ttl :
  known (with_record clock t c) ttl <-> known t ttl \/ ttl = title c.
Proof.
  unfold known, with_record; simpl. rewrite fmap_app, elem_of_app; simpl.
  by rewrite list_elem_of_singleton.
Qed.

Lemma saveNew_sublist clock t hs : (saveNew clock t hs).2 `sublist_of` hs.
Proof.
  revert t; induction hs as [|c hs IH]; intros t; simpl; [done|].
  destruct (decide (known t (title c))).
  - apply sublist_cons, IH.
  - specialize (IH (with_record clock t c)).
    destruct (saveNew clock (with_record clock t c) hs) as [t' new].
    by apply sublist_skip.
Qed.

(** Processing a sequence is processing its first part and then, on the
    table that results, the rest. *)
Lemma saveNew_app clock t before after :
  saveNew clock t (before ++ after) =
    ((saveNew clock (saveNew clock t before).1 after).1,
     (saveNew clock t before).2 ++
     (saveNew clock (saveNew clock t before).1 after).2).
Proof.
  revert t; induction before as [|c before IH]; intros t; simpl.
  - by destruct (saveNew clock t after).
  - destruct (decide (known t (title c))); [apply IH|].
    rewrite IH.
    destruct (saveNew clock (with_record clock t c) before) as [t1 new1].
    simpl. by destruct (saveNew clock t1 after).
Qed.

Lemma saveNew_rows clock t hs :
  (fun r => (rec_title r, rec_url r)) <$> rows (saveNew clock t hs).1 =
  ((fun r => (rec_title r, rec_url r)) <$> rows t) ++
  ((fun c => (title c, url c)) <$> (saveNew clock t hs).2).
Proof.
  revert t; induction hs as [|c hs IH]; intros t; simpl.
  - by rewrite app_nil_r.
  - destruct (decide (known t (title c))); [apply IH|].
    specialize (IH (with_record clock t c)).
    destruct (saveNew clock (with_record clock t c) hs) as [t' new].
    simpl in *. rewrite IH, fmap_app. simpl. by rewrite <- app_assoc.
Qed.

Lemma saveNew_known_mono clock t hs ttl :
  known t ttl -> known (saveNew clock t hs).1 ttl.
Proof.
  revert t; induction hs as [|c hs IH]; intros t Hk; simpl; [done|].
  destruct (decide (known t (title c))); [by apply IH|].
  specialize (IH (with_record clock t c)).
  destruct (saveNew clock (with_record clock t c) hs) as [t' new].
  apply IH, known_with_record. by left.
Qed.

Lemma saveNew_covers clock t hs c :
  c ∈ hs -> known (saveNew clock t hs).1 (title c).
Proof.
  revert t; induction hs as [|d hs IH]; intros t Hin; [by inversion Hin|].
  simpl. apply elem_of_cons in Hin as [->|Hin].
  - destruct (decide (known t (title d))); [by apply saveNew_known_mono|].
    pose proof (saveNew_known_mono clock (with_record clock t d) hs (title d))
      as Hm.
    destruct (saveNew clock (with_record clock t d) hs) as [t' new].
    apply Hm, known_with_record. by right.
  - destruct (decide (known t (title d))); [by apply IH|].
    specialize (IH (with_record clock t d) Hin).
    by destruct (saveNew clock (with_record clock t d) hs) as [t' new].
Qed.

Lemma saveNew_all_known clock t hs :
  (forall c, c ∈ hs -> known t (title c)) -> saveNew clock t hs = (t, []).
Proof.
  induction hs as [|c hs IH]; intros Hall; simpl; [done|].
  rewrite decide_True by (apply Hall; by left).
  apply IH. intros d Hd. apply Hall. by right.
Qed.

Lemma saveNew_NoDup clock t hs :
  NoDup (rec_title <$> rows t) ->
  NoDup (rec_title <$> rows (saveNew clock t hs).1).
Proof.
  revert t; induction hs as [|c hs IH]; intros t Hnd; simpl; [done|].
  destruct (decide (known t (title c))) as [Hk|Hk]; [by apply IH|].
  specialize (IH (with_record clock t c)).
  destruct (saveNew clock (with_record clock t c) hs) as [t' new].
  apply IH. unfold with_record; simpl. rewrite fmap_app. apply NoDup_app.
  split; [done|]. split; [|apply NoDup_singleton].
  intros x Hx Hin. apply list_elem_of_singleton in Hin. by subst.
Qed.

Lemma records_titled_one t ttl :
  NoDup (rec_title <$> rows t) -> known t ttl -> records_titled t ttl = 1.
Proof.
  unfold known, records_titled. induction (rows t) as [|r l IH]; simpl.
  - intros _ H. by inversion H.
  - intros Hnd Hin. apply NoDup_cons in Hnd as [Hr Hnd].
    rewrite filter_cons. destruct (decide (rec_title r = ttl)) as [<-|Hne].
    + simpl. f_equal.
      destruct (filter _ l) as [|r' l'] eqn:Hf; [done|]. exfalso.
      assert (r' ∈ filter (fun r0 => rec_title r0 = rec_title r) l) as Hin'
        by (rewrite Hf; by left).
      apply list_elem_of_filter in Hin' as [Heq Hr'].
      apply Hr. rewrite <- Heq. by apply list_elem_of_fmap_2.
    + apply IH; [done|]. apply elem_of_cons in Hin as [?|?]; [congruence|done].
Qed.

(** What one call of [save_headlines] does on a writable connection that
    sees the table [t]. *)
Lemma save_headlines_run w conn hs t st :
  session st = Some (Some t) ->
  writable (disk st) = true ->
  save_headlines w conn hs st =
    (Ok (saveNew (now w) t hs).2,
     match hs with
     | [] => st
     | _ :: _ =>
         emit (save_queries (now w) t hs ++ [Commit])
              (committed (saveNew (now w) t hs).1 st)
     end).
Proof.
  intros Hs Hw. unfold save_headlines.
  destruct hs as [|c hs]; [done|].
  cbn [truthy negb]. unfold commit. exec.
  rewrite (for_items_run w (c :: hs) [] t st Hs Hw). exec.
  cbn [session viewing]. exec. f_equal.
  unfold emit, committed, viewing; simpl. by rewrite <- app_assoc.
Qed.

(** C3: on a writable connection, [save_headlines] returns exactly the
    candidates whose title had no record at the moment they were
    processed, in input order: it computes [saveNew]; its result is a
    subsequence of the input; a candidate is kept precisely when the table
    left by the candidates before it does not know its title; and the
    table gains exactly one record for each returned candidate. *)
Theorem save_headlines_new_in_order w conn hs t st :
  session st = Some (Some t) ->
  writable (disk st) = true ->
  save_headlines w conn hs st =
    (Ok (saveNew (now w) t hs).2,
     match hs with
     | [] => st
     | _ :: _ =>
         emit (save_queries (now w) t hs ++ [Commit])
              (committed (saveNew (now w) t hs).1 st)
     end) /\
  (saveNew (now w) t hs).2 `sublist_of` hs /\
  (forall before c after,
     hs = before ++ c :: after ->
     (saveNew (now w) t hs).2 =
       (saveNew (now w) t before).2 ++
       (if decide (known (saveNew (now w) t before).1 (title c))
        then [] else [c]) ++
       (saveNew (now w) (saveNew (now w) t (before ++ [c])).1 after).2) /\
  (fun r => (rec_title r, rec_url r)) <$> rows (saveNew (now w) t hs).1 =
    ((fun r => (rec_title r, rec_url r)) <$> rows t) ++
    ((fun c => (title c, url c)) <$> (saveNew (now w) t hs).2).
Proof.
  intros Hs Hw. split; [by apply save_headlines_run|].
  split; [apply saveNew_sublist|]. split; [|apply saveNew_rows].
  intros before c after ->.
  replace (before ++ c :: after) with ((before ++ [c]) ++ after)
    by (by rewrite <- app_assoc).
  rewrite (saveNew_app _ t (before ++ [c]) after). simpl.
  rewrite app_assoc. f_equal.
  rewrite (saveNew_app _ t before [c]). simpl.
  destruct (decide (known _ (title c))); [done|].
  by destruct (saveNew (now w) t before).
Qed.

Lemma save_headlines_new_in_order_witness :
  let w := Sample.world Sample.no_credentials GetRaises Sample.all_ok in
  let hs := [Sample.h_budget; Sample.h_storm; Sample.h_budget_live;
             Sample.h_cup] in
  let t := Sample.seen_storm in
  let st := Sample.opened t in
  session st = Some (Some t) /\
  writable (disk st) = true /\
  (save_headlines w Conn hs st).1 = Ok [Sample.h_budget; Sample.h_cup] /\
  (saveNew (now w) t hs).2 `sublist_of` hs.
Proof.
  intros w hs t st.
  assert (Hs : session st = Some (Some t)) by reflexivity.
  assert (Hw : writable (disk st) = true) by reflexivity.
  destruct (save_headlines_new_in_order w Conn hs t st Hs Hw)
    as (Hrun & Hsub & _).
  split; [exact Hs|]. split; [exact Hw|]. split; [|exact Hsub].
  rewrite Hrun. vm_compute. reflexivity.
Defined.

(** After a call the connection is still open and writable and sees the
    table [saveNew] computed; unless the call had nothing to do, that
    table has been committed to the file. *)
Lemma save_headlines_after w conn hs t st :
  session st = Some (Some t) ->
  writable (disk st) = true ->
  exists st1,
    save_headlines w conn hs st = (Ok (saveNew (now w) t hs).2, st1) /\
    session st1 = Some (Some (saveNew (now w) t hs).1) /\
    writable (disk st1) = true /\
    disk st1 =
      match hs with
      | [] => disk st
      | _ :: _ =>
          {| openable := openable (disk st); writable := true;
             headlines_table := Some (saveNew (now w) t hs).1 |}
      end.
Proof.
  intros Hs Hw. rewrite (save_headlines_run w conn hs t st Hs Hw).
  destruct hs as [|c hs]; [by eexists|].
  eexists. split; [reflexivity|]. cbn [session disk emit committed writable].
  by rewrite Hw.
Qed.

(** After a call the connection is still open and writable, and sees the
    table [saveNew] computed. *)
Lemma save_headlines_next w conn hs t st :
  session st = Some (Some t) ->
  writable (disk st) = true ->
  exists st1,
    save_headlines w conn hs st = (Ok (saveNew (now w) t hs).2, st1) /\
    session st1 = Some (Some (saveNew (now w) t hs).1) /\
    writable (disk st1) = true.
Proof.
  intros Hs Hw. rewrite (save_headlines_run w conn hs t st Hs Hw).
  destruct hs as [|c hs]; eauto.
Qed.

Lemma save_each_run w conn batches t st :
  session st = Some (Some t) ->
  writable (disk st) = true ->
  exists news st' t',
    save_each w conn batches st = (Ok news, st') /\
    session st' = Some (Some t') /\
    (on_file t st \/ Exists (fun hs => hs <> []) batches -> on_file t' st') /\
    (NoDup (rec_title <$> rows t) -> NoDup (rec_title <$> rows t')) /\
    (forall ttl, known t ttl -> known t' ttl) /\
    (forall hs c, hs ∈ batches -> c ∈ hs -> known t' (title c)).
Proof.
  revert t st; induction batches as [|hs batches IH]; intros t st Hs Hw.
  - exists [], st, t. split; [done|]. split; [done|]. split.
    + intros [H|H]; [done|]. by apply Exists_nil in H.
    + repeat split; [done..|]. intros hs c Hin. by inversion Hin.
  - destruct (save_headlines_after w conn hs t st Hs Hw)
      as (st1 & Hrun & Hs1 & Hw1 & Hd1).
    destruct (IH _ st1 Hs1 Hw1)
      as (news & st' & t' & Hrest & Hs' & Hfile & Hnd & Hmono & Hcov).
    exists ((saveNew (now w) t hs).2 :: news), st', t'.
    split; [|split; [done|split; [|split; [|split]]]].
    + simpl. exec. rewrite Hrun. exec. by rewrite Hrest.
    + intros H. apply Hfile. unfold on_file in *. rewrite Hd1.
      destruct hs as [|c hs]; [|by left].
      destruct H as [H|H]; [by left|].
      apply Exists_cons in H as [H|H]; [done|by right].
    + intros H. by apply Hnd, saveNew_NoDup.
    + intros ttl H. by apply Hmono, saveNew_known_mono.
    + intros hs' c Hin Hc. apply elem_of_cons in Hin as [->|Hin].
      * by apply Hmono, saveNew_covers.
      * by apply (Hcov hs').
Qed.

(** C4: a second call of [save_headlines] with the same candidates returns
    the empty list and changes neither the table the connection sees nor
    the file, and after the first call the file holds what the connection
    sees (the call committed, or found the file in that state and had
    nothing to do); and calls preserve the invariant of the store: from a
    table with at most one record per title, any sequence of calls (a call
    may repeat a title under different links) leads to a table, committed
    to the file, in which every title has exactly one record, every
    submitted title among them. *)
Theorem save_headlines_idempotent w conn t st :
  session st = Some (Some t) ->
  writable (disk st) = true ->
  (forall hs, exists new st1 st2 t1,
     save_headlines w conn hs st = (Ok new, st1) /\
     save_headlines w conn hs st1 = (Ok [], st2) /\
     session st1 = Some (Some t1) /\
     session st2 = session st1 /\
     disk st2 = disk st1 /\
     (on_file t st \/ hs <> [] -> on_file t1 st1 /\ on_file t1 st2) /\
     (forall c, c ∈ hs -> known t1 (title c))) /\
  (NoDup (rec_title <$> rows t) ->
   forall batches, exists news st' t',
     save_each w conn batches st = (Ok news, st') /\
     session st' = Some (Some t') /\
     (on_file t st \/ Exists (fun hs => hs <> []) batches -> on_file t' st') /\
     (forall ttl, known t' ttl -> records_titled t' ttl = 1) /\
     (forall hs c, hs ∈ batches -> c ∈ hs -> records_titled t' (title c) = 1)).
Proof.
  intros Hs Hw. split.
  - intros hs.
    destruct (save_headlines_after w conn hs t st Hs Hw)
      as (st1 & Hrun & Hs1 & Hw1 & Hd1).
    destruct (save_headlines_after w conn hs _ st1 Hs1 Hw1)
      as (st2 & Hrun2 & Hs2 & _ & Hd2).
    assert (Hfix : saveNew (now w) (saveNew (now w) t hs).1 hs =
                   ((saveNew (now w) t hs).1, [])).
    { apply saveNew_all_known. intros c Hc. by apply saveNew_covers. }
    rewrite Hfix in Hrun2, Hs2, Hd2. cbn [fst snd] in *.
    assert (Hsame : disk st2 = disk st1).
    { rewrite Hd2. destruct hs as [|c hs]; [done|]. by rewrite Hd1. }
    exists (saveNew (now w) t hs).2, st1, st2, (saveNew (now w) t hs).1.
    split; [done|]. split; [done|]. split; [done|].
    split; [by rewrite Hs1, Hs2|]. split; [done|]. split.
    + intros H. unfold on_file in *. rewrite Hsame, Hd1.
      destruct hs as [|c hs]; [|done].
      destruct H as [H|H]; [|done]. done.
    + intros c Hc. by apply saveNew_covers.
  - intros Hnd batches.
    destruct (save_each_run w conn batches t st Hs Hw)
      as (news & st' & t' & Hrun & Hs' & Hfile & Hnd' & _ & Hcov).
    exists news, st', t'. repeat split; [done..| |].
    + intros ttl Hk. apply records_titled_one; auto.
    + intros hs c Hin Hc. apply records_titled_one; eauto.
Qed.

Lemma save_headlines_idempotent_witness :
  let w := Sample.world Sample.no_credentials GetRaises Sample.all_ok in
  let t := Sample.seen_storm in
  let st := Sample.opened t in
  let hs := [Sample.h_budget; Sample.h_storm; Sample.h_budget_live;
             Sample.h_cup] in
  session st = Some (Some t) /\
  writable (disk st) = true /\
  NoDup (rec_title <$> rows t) /\
  on_file t st /\
  (exists new st1 st2 t1,
     save_headlines w Conn hs st = (Ok new, st1) /\
     save_headlines w Conn hs st1 = (Ok [], st2) /\
     session st1 = Some (Some t1) /\
     session st2 = session st1 /\
     disk st2 = disk st1 /\
     on_file t1 st1 /\ on_file t1 st2 /\
     (forall c, c ∈ hs -> known t1 (title c))) /\
  (exists news st' t',
     save_each w Conn [hs; [Sample.h_cup]; hs] st = (Ok news, st') /\
     session st' = Some (Some t') /\
     on_file t' st' /\
     (forall ttl, known t' ttl -> records_titled t' ttl = 1) /\
     (forall hs' c, hs' ∈ [hs; [Sample.h_cup]; hs] -> c ∈ hs' ->
        records_titled t' (title c) = 1)).
Proof.
  intros w t st hs.
  assert (Hs : session st = Some (Some t)) by reflexivity.
  assert (Hw : writable (disk st) = true) by reflexivity.
  assert (Hnd : NoDup (rec_title <$> rows t)).
  { apply NoDup_singleton. }
  assert (Hf : on_file t st) by reflexivity.
  destruct (save_headlines_idempotent w Conn t st Hs Hw) as [Htwice Hinv].
  split; [exact Hs|]. split; [exact Hw|]. split; [exact Hnd|].
  split; [exact Hf|]. split.
  - destruct (Htwice hs)
      as (new & st1 & st2 & t1 & H1 & H2 & H3 & H4 & H5 & H6 & H7).
    destruct (H6 (or_introl Hf)) as [H8 H9].
    exists new, st1, st2, t1.
    split; [exact H1|]. split; [exact H2|]. split; [exact H3|].
    split; [exact H4|]. split; [exact H5|]. split; [exact H8|].
    split; [exact H9|exact H7].
  - destruct (Hinv Hnd [hs; [Sample.h_cup]; hs])
      as (news & st' & t' & H1 & H2 & H3 & H4 & H5).
    exists news, st', t'.
    split; [exact H1|]. split; [exact H2|]. split; [exact (H3 (or_introl Hf))|].
    split; [exact H4|exact H5].
Defined.

(** The second sample call: a title that the table holds and a title
    repeated under another link are both left out, and the table ends
    with one record per title. *)
Example save_sample :
  let w := Sample.world Sample.no_credentials GetRaises Sample.all_ok in
  let hs := [Sample.h_budget; Sample.h_storm; Sample.h_budget_live;
             Sample.h_cup] in
  match save_headlines w Conn hs (Sample.opened Sample.seen_storm) with
  | (Ok new, st') =>
      new = [Sample.h_budget; Sample.h_cup] /\
      (rec_title <$>
         from_option rows [] (headlines_table (disk st'))) =
        [lit "Storm closes northern ports";
         lit "Budget vote delayed again";
         lit "Cup final goes to penalties"] /\
      (save_headlines w Conn hs st').1 = Ok []
  | _ => False
  end.
Proof. vm_compute. repeat split. Qed.

(** ** The orchestrator *)

(** The first-run check: it reports a first run whenever it cannot count,
    and otherwise when the table is empty; it leaves no connection open. *)
Lemma is_first_run_run st :
  session st = None ->
  is_first_run st =
    (Ok (first_run (disk st)), emit (check_events (disk st)) st).
Proof.
  intros Hs. unfold is_first_run, sqlite3_connect, execute_select_count,
    the_table, close, check_events, first_run. exec.
  destruct (openable (disk st)) eqn:Hopen.
  - exec. cbn [session disk]. exec.
    destruct (headlines_table (disk st)) as [t|]; exec;
      cbn [session disk bool_decide decide_rel]; 
      destruct st; simpl in *; subst; unfold emit; simpl;
      by rewrite <- ?app_assoc.
  - exec. rewrite Hs. by destruct st.
Qed.

(** Store initialization on a file that allows it: the connection is open
    on the table and the table is committed. *)
Lemma setup_database_ok st :
  session st = None ->
  ~ init_fails (disk st) ->
  setup_database st =
    (Ok (Some Conn),
     emit [Connect; Execute CreateTable; Commit]
          (committed (initial_table (disk st)) st)).
Proof.
  intros Hs Hinit. unfold init_fails in Hinit.
  unfold setup_database, sqlite3_connect, execute_create_table, commit,
    initial_table. exec.
  destruct (openable (disk st)) eqn:Hopen; [|by destruct Hinit; left].
  exec. cbn [session disk]. exec.
  destruct (headlines_table (disk st)) as [t|] eqn:Ht; exec.
  - cbn [session disk]. exec. unfold committed, emit; simpl.
    by rewrite <- !app_assoc.
  - destruct (writable (disk st)) eqn:Hw; [|by destruct Hinit; right].
    exec. cbn [session disk]. exec. unfold committed, emit; simpl.
    by rewrite <- !app_assoc.
Qed.

(** Store initialization on a file that does not allow it: no connection
    is returned and the file is as it was. *)
Lemma setup_database_fails st :
  session st = None ->
  init_fails (disk st) ->
  exists st',
    setup_database st = (Ok None, st') /\
    disk st' = disk st /\
    posts st' = posts st /\
    trace st' = trace st ++ failed_init_events (disk st).
Proof.
  intros Hs Hinit. unfold init_fails in Hinit.
  unfold setup_database, sqlite3_connect, execute_create_table, commit,
    failed_init_events. exec.
  destruct (openable (disk st)) eqn:Hopen.
  - destruct Hinit as [|[Ht Hw]]; [done|].
    exec. cbn [session disk]. exec. rewrite Ht, Hw. exec.
    eexists. split; [done|]. simpl. by rewrite <- app_assoc.
  - exec. eexists. split; [done|]. done.
Qed.

Lemma for_selectors_emits soup sels :
  exists hs cs, forall st,
    for_selectors soup sels [] st = (Ok hs, emit (Select <$> cs) st).
Proof.
  induction sels as [|r sels IH].
  - exists [], []. intros st. by rewrite emit_nil.
  - destruct (for_tags (soup r) []) as [|h hs] eqn:Hr.
    + destruct IH as (hs' & cs & IH). exists hs', (r :: cs). intros st.
      simpl. unfold soup_select. exec. by rewrite Hr, IH, emit_emit.
    + exists (h :: hs), [r]. intros st.
      simpl. unfold soup_select. exec. rewrite Hr.
      by rewrite for_selectors_truthy.
Qed.

(** [fetch_headlines] touches nothing but the site and the page, and what
    it returns does not depend on the state it starts from. *)
Lemma fetch_headlines_emits w :
  exists hs cs, forall st,
    fetch_headlines w st = (Ok hs, emit (Get BBC_URL :: (Select <$> cs)) st).
Proof.
  destruct (bbc w) as [|r] eqn:Hbbc.
  { exists [], []. intros st. by rewrite fetch_headlines_run, Hbbc. }
  destruct (bool_decide (400 <= status_code r < 600)%Z) eqn:Hst.
  { exists [], []. intros st. by rewrite fetch_headlines_run, Hbbc, Hst. }
  destruct (parsed r) as [soup|] eqn:Hp.
  - destruct (for_selectors_emits soup selectors) as (hs & cs & H).
    exists hs, cs. intros st.
    by rewrite fetch_headlines_run, Hbbc, Hst, Hp, H, emit_emit.
  - exists [], []. intros st. by rewrite fetch_headlines_run, Hbbc, Hst, Hp.
Qed.

(** What [main] does up to store initialization. *)
Lemma main_run w st :
  session st = None ->
  main w st =
    match setup_database (before_init w st) with
    | (Ok (Some conn), st2) =>
        try_finally
          (try_except
             (main_try w conn (get_telegram_credentials (environ w)).1
                (get_telegram_credentials (environ w)).2)
             (fun _ => ret tt))
          (close conn) st2
    | (Ok None, st2) => (Ok tt, st2)
    | (Raise e, st2) => (Raise e, st2)
    end.
Proof.
  intros Hs. unfold main, before_init.
  destruct (get_telegram_credentials (environ w)) as [[token|] chat_ids] eqn:Hcred.
  - pose proof (get_telegram_credentials_some _ _ _ Hcred) as [Ht Hc].
    cbn [truthy_opt fst snd]. rewrite Ht, Hc. cbn [negb orb].
    unfold bind at 1. unfold bind at 1.
    rewrite is_first_run_run by done.
    destruct (first_run (disk st)).
    + unfold send_test_notification. unfold bind at 1.
      rewrite (notify_run w _ token chat_ids) by done.
      unfold ret at 1. unfold bind at 1.
      destruct (setup_database _) as [[[c|]|e] st2]; done.
    + unfold ret at 1. unfold bind at 1.
      destruct (setup_database _) as [[[c|]|e] st2]; done.
  - cbn [truthy_opt negb orb fst snd]. unfold bind at 1. unfold ret at 1.
    unfold bind at 1.
    destruct (setup_database _) as [[[c|]|e] st2]; done.
Qed.

(** ** Footprints *)

Section Footprint.

Context (P : Event -> Prop).

Lemma emits_ret {A} (a : A) : emits P (ret a).
Proof. intros s. exists []. by rewrite app_nil_r. Qed.

Lemma emits_raise {A} (e : exn) : emits P (raise (A:=A) e).
Proof. intros s. exists []. by rewrite app_nil_r. Qed.

Lemma emits_log (e : Event) : P e -> emits P (log e).
Proof. intros He s. exists [e]. split; [done|]. by apply Forall_singleton. Qed.

Lemma emits_get_state : emits P get_state.
Proof. intros s. exists []. by rewrite app_nil_r. Qed.

Lemma emits_set_session v : emits P (set_session v).
Proof. intros s. exists []. by rewrite app_nil_r. Qed.

Lemma emits_set_table t : emits P (set_table t).
Proof. intros s. exists []. by rewrite app_nil_r. Qed.

Lemma emits_count_post : emits P count_post.
Proof. intros s. exists []. by rewrite app_nil_r. Qed.

Lemma emits_bind {A B} (m : M A) (k : A -> M B) :
  emits P m -> (forall a, emits P (k a)) -> emits P (bind m k).
Proof.
  intros Hm Hk s. unfold bind.
  destruct (Hm s) as (evs & Htr & Hall).
  destruct (m s) as [[a|e] s1]; simpl in Htr.
  - destruct (Hk a s1) as (evs' & Htr' & Hall').
    exists (evs ++ evs'). rewrite Htr', Htr, app_assoc.
    split; [done|]. by apply Forall_app.
  - by exists evs.
Qed.

Lemma emits_try_except {A} (body : M A) (handler : exn -> M A) :
  emits P body -> (forall e, emits P (handler e)) ->
  emits P (try_except body handler).
Proof.
  intros Hm Hk s. unfold try_except.
  destruct (Hm s) as (evs & Htr & Hall).
  destruct (body s) as [[a|e] s1]; simpl in Htr.
  - by exists evs.
  - destruct (Hk e s1) as (evs' & Htr' & Hall').
    exists (evs ++ evs'). rewrite Htr', Htr, app_assoc.
    split; [done|]. by apply Forall_app.
Qed.

Lemma emits_try_finally {A} (body : M A) (cleanup : M unit) :
  emits P body -> emits P cleanup -> emits P (try_finally body cleanup).
Proof.
  intros Hm Hk s. unfold try_finally.
  destruct (Hm s) as (evs & Htr & Hall).
  destruct (body s) as [r s1]; simpl in Htr.
  destruct (Hk s1) as (evs' & Htr' & Hall').
  exists (evs ++ evs').
  destruct (cleanup s1) as [[u|e] s2]; simpl in *;
    rewrite Htr', Htr, app_assoc; (split; [done|]); by apply Forall_app.
Qed.

End Footprint.

Lemma emits_mono (P Q : Event -> Prop) {A} (m : M A) :
  (forall e, P e -> Q e) -> emits P m -> emits Q m.
Proof.
  intros HPQ Hm s. destruct (Hm s) as (evs & Htr & Hall).
  exists evs. split; [done|]. by eapply Forall_impl.
Qed.

(** Break a footprint goal down along the structure of the computation,
    with a case distinction wherever it branches. *)
Ltac footprint_step :=
  lazymatch goal with
  | |- emits _ (ret _) => apply emits_ret
  | |- emits _ (raise _) => apply emits_raise
  | |- emits _ get_state => apply emits_get_state
  | |- emits _ (set_session _) => apply emits_set_session
  | |- emits _ (set_table _) => apply emits_set_table
  | |- emits _ count_post => apply emits_count_post
  | |- emits _ (log _) => apply emits_log; try done
  | |- emits _ (bind _ _) => apply emits_bind; [|intros ?]
  | |- emits _ (try_except _ _) => apply emits_try_except; [|intros ?]
  | |- emits _ (try_finally _ _) => apply emits_try_finally
  | |- emits _ (match ?x with _ => _ end) => destruct x
  end.

Ltac footprint := repeat footprint_step.

Lemma emits_the_table P : emits P the_table.
Proof. unfold the_table. footprint. Qed.

Lemma emits_for_items w items acc : emits about_headlines (for_items w items acc).
Proof.
  revert acc; induction items as [|c items IH]; intros acc; simpl.
  - footprint.
  - unfold execute_select_id, execute_insert.
    footprint; try apply emits_the_table; apply IH.
Qed.

Lemma emits_save_headlines w conn hs :
  emits about_headlines (save_headlines w conn hs).
Proof.
  unfold save_headlines, commit. footprint. apply emits_for_items.
Qed.

Lemma emits_for_chat_ids w token message chat_ids n :
  emits (is_post_of message) (for_chat_ids w token message chat_ids n).
Proof.
  revert n; induction chat_ids as [|c chat_ids IH]; intros n; simpl.
  - footprint.
  - unfold requests_post. footprint; apply IH.
Qed.

Lemma emits_send_telegram_notification w message :
  emits (is_post_of message) (send_telegram_notification w message).
Proof.
  unfold send_telegram_notification. footprint.
  apply emits_for_chat_ids.
Qed.

Lemma emits_fetch_headlines w : emits about_headlines (fetch_headlines w).
Proof.
  intros s. destruct (fetch_headlines_emits w) as (hs & cs & H). rewrite H.
  eexists. split; [done|]. apply Forall_cons. split; [done|].
  apply Forall_fmap, Forall_forall. done.
Qed.

(** ** The message *)

Lemma for_enumerate_concat idx items message :
  for_enumerate idx items message =
    message ++ concat (imap (fun i c => entry (idx + i) c) items).
Proof.
  revert idx message; induction items as [|c items IH]; intros idx message.
  - by rewrite app_nil_r.
  - simpl. rewrite IH, <- app_assoc, Nat.add_0_r. do 3 f_equal.
    apply imap_ext. intros i x _. simpl. f_equal. lia.
Qed.

Lemma headline_message_entries new :
  headline_message new =
    message_header ++ concat (imap (fun i c => entry (S i) c) (take 5 new)).
Proof. unfold headline_message. by rewrite for_enumerate_concat. Qed.


Lemma headline_message_not_test new : headline_message new <> test_message.
Proof. rewrite headline_message_entries. discriminate. Qed.

Lemma emits_main_try w conn token ids :
  emits about_headlines (main_try w conn token ids).
Proof.
  unfold main_try. footprint.
  - apply emits_fetch_headlines.
  - apply emits_save_headlines.
  - eapply emits_mono; [|apply emits_send_telegram_notification].
    intros [] He; try done. simpl in *. subst.
    apply headline_message_not_test.
Qed.

(** ** The run *)

Lemma before_init_disk w st : disk (before_init w st) = disk st.
Proof.
  unfold before_init.
  destruct (get_telegram_credentials (environ w)) as [[token|] ids]; [|done].
  by destruct (first_run (disk st)).
Qed.

Lemma before_init_session w st : session (before_init w st) = session st.
Proof.
  unfold before_init.
  destruct (get_telegram_credentials (environ w)) as [[token|] ids]; [|done].
  by destruct (first_run (disk st)).
Qed.

(** The bootstrap phase makes only the first-run check and, at most, the
    bootstrap requests. *)
Lemma before_init_trace w st :
  exists evs,
    trace (before_init w st) = trace st ++ evs /\
    Forall (fun e => ~ about_headlines e) evs.
Proof.
  assert (Hcheck : Forall (fun e => ~ about_headlines e) (check_events (disk st))).
  { unfold check_events. destruct (openable (disk st));
      repeat constructor; simpl; tauto. }
  unfold before_init.
  destruct (get_telegram_credentials (environ w)) as [[token|] ids].
  - destruct (first_run (disk st)).
    + exists (check_events (disk st) ++ requests token test_message ids).
      split; [by rewrite app_assoc|]. apply Forall_app. split; [done|].
      apply Forall_fmap, Forall_forall. intros c _. simpl. tauto.
    + by exists (check_events (disk st)).
  - exists []. by rewrite app_nil_r.
Qed.

(** The guarded part of [main] always returns, and makes only calls about
    headlines before it closes the connection. *)
Lemma main_guarded_run w conn token ids st :
  exists evs st',
    try_finally (try_except (main_try w conn token ids) (fun _ => ret tt))
      (close conn) st = (Ok tt, st') /\
    trace st' = trace st ++ evs ++ [Close] /\
    Forall about_headlines evs /\
    session st' = None.
Proof.
  destruct (emits_main_try w conn token ids st) as (evs & Htr & Hall).
  unfold try_finally, try_except, close. exec.
  destruct (main_try w conn token ids st) as [[[]|e] st1]; simpl in Htr;
    exists evs; eexists; (split; [done|]); simpl;
    by rewrite Htr, app_assoc.
Qed.

Lemma init_fails_dec d : init_fails d \/ ~ init_fails d.
Proof.
  unfold init_fails.
  destruct (openable d); [|by left; left].
  destruct (headlines_table d); [right; intros [|[]]; done|].
  destruct (writable d); [right; intros [|[]]; done|].
  left; by right.
Qed.

(** A run in which the store cannot be initialized: [main] returns right
    after the attempt, and the file is as it was. *)
Lemma run_init_fails w d :
  init_fails d ->
  exists st',
    run w d = (Ok tt, st') /\
    disk st' = d /\
    trace st' = trace (before_init w (initial d)) ++ failed_init_events d.
Proof.
  intros Hfail. unfold run. rewrite main_run by done.
  destruct (setup_database_fails (before_init w (initial d)))
    as (st' & -> & Hd & _ & Htr).
  - by rewrite before_init_session.
  - by rewrite before_init_disk.
  - exists st'. rewrite before_init_disk in Hd, Htr. done.
Qed.

(** A run in which the store is initialized: [main] returns after the
    guarded part, which makes only calls about headlines and closes the
    connection. *)
Lemma run_init_ok w d :
  ~ init_fails d ->
  exists evs st',
    run w d = (Ok tt, st') /\
    trace st' = trace (before_init w (initial d))
                ++ [Connect; Execute CreateTable; Commit] ++ evs ++ [Close] /\
    Forall about_headlines evs.
Proof.
  intros Hok. unfold run. rewrite main_run by done.
  rewrite setup_database_ok;
    [|by rewrite before_init_session|by rewrite before_init_disk].
  match goal with
  | |- context [try_finally ?b ?c ?s] =>
      destruct (main_guarded_run w Conn
                  (get_telegram_credentials (environ w)).1
                  (get_telegram_credentials (environ w)).2 s)
        as (evs & st' & -> & Htr & Hall & _)
  end.
  exists evs, st'. split; [done|]. split; [|done].
  rewrite Htr. rewrite trace_emit. simpl. by rewrite <- !app_assoc.
Qed.

Lemma first_run_no_records d : records d = [] -> first_run d = true.
Proof.
  unfold records, first_run. destruct (openable d); [|done].
  destruct (headlines_table d) as [t|]; [|done]. simpl. by intros ->.
Qed.

(** C7, as the code has it: with usable credentials and no stored record,
    the bootstrap message goes out exactly once, one request per
    recipient, right after the first-run check and before store
    initialization is attempted, so also when that initialization then
    fails; no later request carries the bootstrap text, and every
    headline notification comes later. *)
Theorem bootstrap_before_init w d token ids :
  get_telegram_credentials (environ w) = (Some token, ids) ->
  records d = [] ->
  exists rest,
    trace (run w d).2 =
      check_events d ++ requests token test_message ids ++ Connect :: rest /\
    ids <> [] /\
    Forall is_check (check_events d) /\
    Forall (fun e => ~ is_post_of test_message e) rest /\
    (init_fails d -> rest = tail (failed_init_events d)).
Proof.
  intros Hcred Hrec.
  assert (Hbefore : trace (before_init w (initial d)) =
                    check_events d ++ requests token test_message ids).
  { unfold before_init. cbn [initial disk].
    by rewrite Hcred, first_run_no_records. }
  assert (Hids : ids <> []).
  { apply get_telegram_credentials_some in Hcred as [_ Hids].
    by apply truthy_true. }
  assert (Hcheck : Forall is_check (check_events d)).
  { unfold check_events, is_check. destruct (openable d);
      repeat constructor; tauto. }
  destruct (init_fails_dec d) as [Hfail|Hok].
  - destruct (run_init_fails w d Hfail) as (st' & Hrun & _ & Htr).
    exists (tail (failed_init_events d)). rewrite Hrun. simpl.
    rewrite Htr, Hbefore, <- app_assoc.
    split; [|split; [done|split; [done|split; [|done]]]].
    + unfold failed_init_events. by destruct (openable d).
    + unfold failed_init_events. destruct (openable d); repeat constructor.
      simpl. tauto.
  - destruct (run_init_ok w d Hok) as (evs & st' & Hrun & Htr & Hall).
    exists ([Execute CreateTable; Commit] ++ evs ++ [Close]).
    rewrite Hrun. simpl. rewrite Htr, Hbefore, <- app_assoc.
    split; [done|]. split; [done|]. split; [done|]. split; [|done].
    repeat (apply Forall_cons; split; [simpl; tauto|]).
    apply Forall_app. split; [|repeat constructor; simpl; tauto].
    eapply Forall_impl; [exact Hall|].
    intros [] He Hp; simpl in *; try done.
Qed.

Lemma bootstrap_before_init_witness :
  get_telegram_credentials (environ Sample.notifying) =
    (Some (lit "123:abc"), [lit "111"; lit "222"; lit "333"]) /\
  records Sample.fresh = [] /\
  exists rest,
    trace (run Sample.notifying Sample.fresh).2 =
      check_events Sample.fresh
      ++ requests (lit "123:abc") test_message [lit "111"; lit "222"; lit "333"]
      ++ Connect :: rest /\
    [lit "111"; lit "222"; lit "333"] <> [] /\
    Forall is_check (check_events Sample.fresh) /\
    Forall (fun e => ~ is_post_of test_message e) rest /\
    (init_fails Sample.fresh -> rest = tail (failed_init_events Sample.fresh)).
Proof.
  assert (H1 : get_telegram_credentials (environ Sample.notifying) =
    (Some (lit "123:abc"), [lit "111"; lit "222"; lit "333"])) by reflexivity.
  assert (H2 : records Sample.fresh = []) by reflexivity.
  split; [exact H1|]. split; [exact H2|].
  exact (bootstrap_before_init Sample.notifying Sample.fresh _ _ H1 H2).
Defined.

(** C7 as the specification states it does not hold: with usable
    credentials and a store without records, the bootstrap message is
    sent although store initialization fails, and no bootstrap request
    comes after an initialization of the store. *)
Lemma bootstrap_sent_though_init_fails :
  get_telegram_credentials (environ Sample.notifying) =
    (Some (lit "123:abc"), [lit "111"; lit "222"; lit "333"]) /\
  records Sample.unopenable = [] /\
  (setup_database (before_init Sample.notifying (initial Sample.unopenable))).1
    = Ok None /\
  trace (run Sample.notifying Sample.unopenable).2 =
    [Connect]
    ++ requests (lit "123:abc") test_message [lit "111"; lit "222"; lit "333"]
    ++ [Connect] /\
  ~ bootstrap_follows_init (trace (run Sample.notifying Sample.unopenable).2).
Proof.
  split; [reflexivity|]. split; [reflexivity|]. split; [reflexivity|].
  split; [reflexivity|].
  intros H.
  destruct (H [Connect]
              (Post (sendMessage_url (lit "123:abc")) (lit "111") test_message)
              (requests (lit "123:abc") test_message [lit "222"; lit "333"]
               ++ [Connect])) as [Hinit _]; [reflexivity|reflexivity|].
  apply list_elem_of_singleton in Hinit. discriminate.
Qed.

(** C8, as the code has it: [main] always returns, so the exit status is 0
    in every run, a run whose store initialization fails included; such a
    run makes no call that fetches, saves or notifies about headlines and
    leaves the file as it was. *)
Theorem main_exit_code w d :
  exit_code (run w d).1 = 0%Z /\
  (init_fails d ->
     Forall (fun e => ~ about_headlines e) (trace (run w d).2) /\
     disk (run w d).2 = d).
Proof.
  split.
  - destruct (init_fails_dec d) as [Hfail|Hok].
    + by destruct (run_init_fails w d Hfail) as (st' & -> & _).
    + by destruct (run_init_ok w d Hok) as (evs & st' & -> & _).
  - intros Hfail.
    destruct (run_init_fails w d Hfail) as (st' & -> & Hd & Htr).
    split; [|done]. simpl. rewrite Htr.
    destruct (before_init_trace w (initial d)) as (evs & -> & Hall).
    simpl. apply Forall_app. split; [done|].
    unfold failed_init_events. destruct (openable d);
      repeat constructor; simpl; tauto.
Qed.

Lemma main_exit_code_witness :
  init_fails Sample.read_only /\
  exit_code (run Sample.notifying Sample.read_only).1 = 0%Z /\
  Forall (fun e => ~ about_headlines e)
         (trace (run Sample.notifying Sample.read_only).2) /\
  disk (run Sample.notifying Sample.read_only).2 = Sample.read_only.
Proof.
  assert (H : init_fails Sample.read_only) by (right; split; reflexivity).
  destruct (main_exit_code Sample.notifying Sample.read_only) as [Hexit Hquiet].
  split; [exact H|]. split; [exact Hexit|]. exact (Hquiet H).
Defined.

(** C8 as the specification states it does not hold: store initialization
    fails, [setup_database] hands back no connection, and the exit status
    is 0. *)
Lemma init_failure_exits_zero :
  init_fails Sample.unopenable /\
  (setup_database (before_init Sample.notifying (initial Sample.unopenable))).1
    = Ok None /\
  (run Sample.notifying Sample.unopenable).1 = Ok tt /\
  exit_code (run Sample.notifying Sample.unopenable).1 = 0%Z /\
  ~ exit_code (run Sample.notifying Sample.unopenable).1 <> 0%Z.
Proof.
  split; [by left|]. split; [reflexivity|]. split; [reflexivity|].
  split; [reflexivity|]. intros H. by apply H.
Qed.

(** C10: when the first-run check cannot count the records, because the
    file cannot be opened or the table does not exist, [is_first_run]
    returns [True]; with usable credentials the run then starts with the
    check followed by the bootstrap message to every recipient. *)
Theorem first_run_when_uncountable w d :
  uncountable d ->
  (forall st, disk st = d -> (is_first_run st).1 = Ok true) /\
  (forall token ids,
     get_telegram_credentials (environ w) = (Some token, ids) ->
     exists rest,
       trace (run w d).2 =
         check_events d ++ requests token test_message ids ++ rest).
Proof.
  intros Hunc. split.
  - intros st <-. unfold is_first_run, sqlite3_connect, execute_select_count,
      the_table, close. exec.
    destruct (openable (disk st)) eqn:Hopen.
    + destruct Hunc as [?|Ht]; [congruence|].
      exec. cbn [session disk]. exec. rewrite Ht. exec.
      cbn [session bool_decide decide_rel]. by exec.
    + exec. by destruct (bool_decide _).
  - intros token ids Hcred.
    assert (Hbefore : trace (before_init w (initial d)) =
                      check_events d ++ requests token test_message ids).
    { unfold before_init. cbn [initial disk]. rewrite Hcred.
      replace (first_run d) with true; [done|].
      unfold first_run, uncountable in *. destruct (openable d); [|done].
      destruct Hunc as [Ho|Ht]; [done|]. by rewrite Ht. }
    destruct (init_fails_dec d) as [Hfail|Hok].
    + destruct (run_init_fails w d Hfail) as (st' & -> & _ & Htr).
      exists (failed_init_events d). simpl.
      by rewrite Htr, Hbefore, <- app_assoc.
    + destruct (run_init_ok w d Hok) as (evs & st' & -> & Htr & _).
      eexists. simpl. rewrite Htr, Hbefore, <- app_assoc. done.
Qed.

Lemma first_run_when_uncountable_witness :
  uncountable Sample.unopenable /\
  (is_first_run (initial Sample.unopenable)).1 = Ok true /\
  get_telegram_credentials (environ Sample.notifying) =
    (Some (lit "123:abc"), [lit "111"; lit "222"; lit "333"]) /\
  exists rest,
    trace (run Sample.notifying Sample.unopenable).2 =
      check_events Sample.unopenable
      ++ requests (lit "123:abc") test_message [lit "111"; lit "222"; lit "333"]
      ++ rest.
Proof.
  assert (H : uncountable Sample.unopenable) by (left; reflexivity).
  assert (Hcred : get_telegram_credentials (environ Sample.notifying) =
    (Some (lit "123:abc"), [lit "111"; lit "222"; lit "333"])) by reflexivity.
  destruct (first_run_when_uncountable Sample.notifying Sample.unopenable H)
    as [Hfirst Hboot].
  split; [exact H|].
  split; [exact (Hfirst (initial Sample.unopenable) eq_refl)|].
  split; [exact Hcred|].
  exact (Hboot _ _ Hcred).
Defined.





(** The sample run with seven new headlines: all seven are on disk, the
    three recipients get one message with five entries, and the long
    title is cut to 77 characters and three dots. *)
Example seven_new_five_shown :
  let st := (run Sample.busy Sample.fresh).2 in
  let shown :=
    take 5 ((fun r => {| title := rec_title r; url := rec_url r |})
            <$> records (disk st)) in
  (run Sample.busy Sample.fresh).1 = Ok tt /\
  length (records (disk st)) = 7 /\
  drop (length (trace st) - 4) (trace st) =
    requests (lit "123:abc")
      (message_header ++ concat (imap (fun i c => entry (S i) c) shown))
      [lit "111"; lit "222"; lit "333"] ++ [Close] /\
  (shown_title <$> shown) !! 1 =
    Some (lit "Parliament votes to extend the emergency budget measures for another three mo...").
Proof. vm_compute. repeat split. Qed.

(** * Further properties *)

(** ** display_headlines *)

Lemma for_rows_run c idx items rows0 t0 :
  for_rows c idx items rows0 t0 =
    (rows0 ++ imap (fun i item => table_row c (idx + i) item) items,
     default t0 (row_title <$> last items)).
Proof.
  revert idx rows0 t0; induction items as [|item items IH];
    intros idx rows0 t0.
  - simpl. by rewrite app_nil_r.
  - cbn [for_rows]. rewrite IH. f_equal.
    + rewrite <- app_assoc. f_equal. cbn [imap app]. rewrite Nat.add_0_r.
      f_equal. apply imap_ext. intros i x _. simpl. f_equal. lia.
    + destruct items as [|item' items]; [done|].
      rewrite last_cons_cons.
      destruct (proj2 (last_is_Some (item' :: items))) as [x ->]; done.
Qed.

Lemma row_title_len item :
  len (row_title item) <= 60 /\
  (len (title item) <= 60 -> row_title item = title item) /\
  (60 < len (title item) -> row_title item = take 57 (title item) ++ lit "...").
Proof.
  unfold row_title, len. destruct (60 <? length (title item)) eqn:H.
  - apply Nat.ltb_lt in H. split; [|split; [lia|done]].
    rewrite length_app, length_take. change (length (lit "...")) with 3. lia.
  - apply Nat.ltb_ge in H. split; [done|]. split; [done|lia].
Qed.

Lemma row_url_len item :
  len (row_url item) <= 30 /\
  (len (url item) <= 30 -> row_url item = url item) /\
  (30 < len (url item) ->
     exists ending,
       row_url item = lit "..." ++ ending /\
       ending `suffix_of` url item /\ len ending = 27).
Proof.
  unfold row_url, len. destruct (30 <? length (url item)) eqn:H.
  - apply Nat.ltb_lt in H. split; [|split; [lia|]].
    + rewrite length_app, length_drop. change (length (lit "...")) with 3. lia.
    + intros _. exists (drop (length (url item) - 27) (url item)).
      split; [done|]. split; [apply suffix_drop|]. rewrite length_drop. lia.
  - apply Nat.ltb_ge in H. split; [done|]. split; [done|lia].
Qed.

(** X1: for a non-empty list, [display_headlines] prints a banner and then
    a table with one row for each of the first 15 headlines, numbered from
    1; a title cell has at most 60 characters and a link cell at most 30,
    short titles and links are shown as they are, a long title is cut to
    its first 57 characters and three dots, a long link to three dots and
    its last 27 characters. *)
Theorem display_headlines_rows c hs caption :
  hs <> [] ->
  exists top t rest,
    display_headlines c hs caption = Text top :: Rendered t :: rest /\
    table_rows t = imap (fun i item => table_row c (S i) item) (take 15 hs) /\
    length (table_rows t) = min 15 (length hs) /\
    forall item,
      len (row_title item) <= 60 /\
      (len (title item) <= 60 -> row_title item = title item) /\
      (60 < len (title item) ->
         row_title item = take 57 (title item) ++ lit "...") /\
      len (row_url item) <= 30 /\
      (len (url item) <= 30 -> row_url item = url item) /\
      (30 < len (url item) ->
         exists ending,
           row_url item = lit "..." ++ ending /\
           ending `suffix_of` url item /\ len ending = 27).
Proof.
  intros Hne. unfold display_headlines.
  destruct hs as [|h hs]; [done|]. cbn [truthy negb].
  rewrite for_rows_run. cbn [app].
  eexists _, _, _. split; [reflexivity|]. cbn [table_rows].
  split; [done|]. split; [by rewrite length_imap, length_take|].
  intros item.
  destruct (row_title_len item) as (? & ? & ?).
  destruct (row_url_len item) as (? & ? & ?). done.
Qed.

Lemma display_headlines_rows_witness :
  [Sample.h_budget; Sample.h_storm] <> [] /\
  exists top t rest,
    display_headlines Sample.ansi [Sample.h_budget; Sample.h_storm]
      (lit "Latest Headlines") = Text top :: Rendered t :: rest /\
    table_rows t =
      imap (fun i item => table_row Sample.ansi (S i) item)
           (take 15 [Sample.h_budget; Sample.h_storm]) /\
    length (table_rows t) = min 15 (length [Sample.h_budget; Sample.h_storm]).
Proof.
  assert (H : [Sample.h_budget; Sample.h_storm] <> []) by discriminate.
  split; [exact H|].
  destruct (display_headlines_rows Sample.ansi
              [Sample.h_budget; Sample.h_storm] (lit "Latest Headlines") H)
    as (top & t & rest & H1 & H2 & H3 & _).
  exists top, t, rest. split; [exact H1|]. split; [exact H2|exact H3].
Defined.

(** X2: the caption passed to [display_headlines] never reaches the
    console: the loop over the rows assigns the same variable, so for a
    non-empty list the banner carries the title cell of the last row, and
    two calls that differ only in the caption print the same. *)
Theorem display_headlines_caption_lost c hs caption caption' :
  display_headlines c hs caption = display_headlines c hs caption' /\
  forall item,
    last (take 15 hs) = Some item ->
    exists rest,
      display_headlines c hs caption =
        Text (banner c (row_title item)) :: rest.
Proof.
  unfold display_headlines. destruct hs as [|h hs]; [by split|].
  cbn [truthy negb]. rewrite !for_rows_run.
  assert (Hlast : is_Some (last (take 15 (h :: hs)))).
  { simpl. destruct (take 14 hs) as [|x l]; [by eexists|].
    rewrite last_cons_cons. apply last_is_Some. done. }
  destruct Hlast as [item Hitem]. rewrite Hitem. cbn [fmap option_fmap option_map default from_option id].
  split; [done|]. intros item' [= <-]. eexists. reflexivity.
Qed.

Lemma display_headlines_caption_lost_witness :
  last (take 15 [Sample.h_budget; Sample.h_storm]) = Some Sample.h_storm /\
  exists rest,
    display_headlines Sample.ansi [Sample.h_budget; Sample.h_storm]
      (lit "Latest Headlines") =
    Text (banner Sample.ansi (row_title Sample.h_storm)) :: rest.
Proof.
  assert (H : last (take 15 [Sample.h_budget; Sample.h_storm])
              = Some Sample.h_storm) by reflexivity.
  split; [exact H|].
  exact (proj2 (display_headlines_caption_lost Sample.ansi
                  [Sample.h_budget; Sample.h_storm]
                  (lit "Latest Headlines") (lit "Latest Headlines"))
               Sample.h_storm H).
Defined.

Lemma for_links_run idx items :
  for_links idx items =
    imap (fun i item => Text (str_of_nat (idx + i) ++ lit ". " ++ url item))
         items.
Proof.
  revert idx; induction items as [|item items IH]; intros idx; [done|].
  cbn [for_links imap]. rewrite Nat.add_0_r, IH. f_equal.
  apply imap_ext. intros i x _. simpl. do 3 f_equal. lia.
Qed.

(** X3: below the table, [display_headlines] prints the links of the
    first five headlines in full (a link the table cuts is not cut here),
    numbered from 1, and, when there are more than five headlines, one
    line that tells how many are left. *)
Theorem display_headlines_links c hs caption :
  hs <> [] ->
  exists top t bottom,
    display_headlines c hs caption =
      [Text top; Rendered t; Text bottom]
      ++ Text (Fore_YELLOW c ++ lit "Full article links:" ++ Style_RESET_ALL c)
      :: imap (fun i item => Text (str_of_nat (S i) ++ lit ". " ++ url item))
              (take 5 hs)
      ++ (if decide (5 < length hs)
          then [Text (lit "... and " ++ str_of_nat (length hs - 5)
                      ++ lit " more")]
          else [])
      ++ [Text []].
Proof.
  intros Hne. unfold display_headlines.
  destruct hs as [|h hs]; [done|]. cbn [truthy negb].
  destruct (for_rows c 1 _ [] caption) as [rows0 title0].
  eexists _, _, _. f_equal. 
  replace (0 <? length (h :: hs)) with true by done.
  rewrite for_links_run. cbn [app]. do 2 f_equal.
  destruct (5 <? length (h :: hs)) eqn:H5.
  - apply Nat.ltb_lt in H5. by rewrite decide_True.
  - apply Nat.ltb_ge in H5. rewrite decide_False by lia. done.
Qed.

Lemma display_headlines_links_witness :
  [Sample.h_budget; Sample.h_storm] <> [] /\
  exists top t bottom,
    display_headlines Sample.ansi [Sample.h_budget; Sample.h_storm] [] =
      [Text top; Rendered t; Text bottom]
      ++ Text (Fore_YELLOW Sample.ansi ++ lit "Full article links:"
               ++ Style_RESET_ALL Sample.ansi)
      :: imap (fun i item => Text (str_of_nat (S i) ++ lit ". " ++ url item))
              (take 5 [Sample.h_budget; Sample.h_storm])
      ++ (if decide (5 < length [Sample.h_budget; Sample.h_storm])
          then [Text (lit "... and "
                      ++ str_of_nat (length [Sample.h_budget; Sample.h_storm] - 5)
                      ++ lit " more")]
          else [])
      ++ [Text []].
Proof.
  assert (H : [Sample.h_budget; Sample.h_storm] <> []) by discriminate.
  split; [exact H|].
  exact (display_headlines_links Sample.ansi
           [Sample.h_budget; Sample.h_storm] [] H).
Defined.

(** ** get_telegram_credentials *)

Lemma rev_reverse {A} (l : list A) : rev l = reverse l.
Proof. apply rev_alt. Qed.

Lemma lstrip_elem s x : x ∈ lstrip s -> x ∈ s.
Proof.
  induction s as [|c s IH]; simpl; [done|].
  destruct (isspace c); [|done]. intros H. right. by apply IH.
Qed.

Lemma lstrip_head s x : head (lstrip s) = Some x -> isspace x = false.
Proof.
  induction s as [|c s IH]; simpl; [done|].
  destruct (isspace c) eqn:Hc; [done|]. simpl. by intros [= <-].
Qed.

Lemma lstrip_spaces l s :
  Forall (fun x => isspace x = true) l -> lstrip (l ++ s) = lstrip s.
Proof.
  induction 1 as [|x l Hx _ IH]; [done|]. simpl. by rewrite Hx.
Qed.

Lemma lstrip_id s :
  (forall x, head s = Some x -> isspace x = false) -> lstrip s = s.
Proof.
  destruct s as [|c s]; [done|]. intros H. simpl. by rewrite (H c).
Qed.

Lemma lstrip_keeps_last l x :
  isspace x = false -> exists l', lstrip (l ++ [x]) = l' ++ [x].
Proof.
  intros Hx. induction l as [|c l [l' IH]]; simpl.
  - rewrite Hx. by exists [].
  - destruct (isspace c); [by exists l'|]. by exists (c :: l).
Qed.

Lemma strip_elem s x : x ∈ strip s -> x ∈ s.
Proof.
  unfold strip. rewrite !rev_reverse, elem_of_reverse. intros H.
  apply lstrip_elem in H. apply (proj1 (elem_of_reverse _ _)) in H.
  by apply lstrip_elem.
Qed.

Lemma strip_last s x : last (strip s) = Some x -> isspace x = false.
Proof.
  unfold strip. rewrite !rev_reverse, last_reverse. apply lstrip_head.
Qed.

Lemma strip_head s x : head (strip s) = Some x -> isspace x = false.
Proof.
  unfold strip. rewrite !rev_reverse.
  destruct (lstrip s) as [|y a] eqn:Ha; [done|].
  assert (Hy : isspace y = false) by (apply (lstrip_head s); by rewrite Ha).
  rewrite reverse_cons.
  destruct (lstrip_keeps_last (reverse a) y Hy) as [l' ->].
  rewrite reverse_app. simpl. by intros [= <-].
Qed.

(** Stripping removes exactly the white space around a clean id. *)
Lemma strip_padded field cid :
  clean_id cid -> padded field cid -> strip field = cid.
Proof.
  intros (Hne & _ & Hhead & Hlast) (l & r & -> & Hl & Hr).
  unfold strip. rewrite lstrip_spaces by done.
  rewrite (lstrip_id (cid ++ r)).
  2:{ intros x Hx. apply Hhead. destruct cid; [done|]. done. }
  rewrite !rev_reverse, reverse_app.
  rewrite lstrip_spaces by (by apply Forall_reverse).
  rewrite lstrip_id; [by rewrite reverse_involutive|].
  intros x Hx. apply Hlast. by rewrite <- head_reverse.
Qed.

Lemma split_from_fields sep cur s :
  sep ∉ cur -> Forall (fun f => sep ∉ f) (split_from sep cur s).
Proof.
  revert cur; induction s as [|c s IH]; intros cur Hcur; simpl.
  - apply Forall_singleton. by rewrite rev_reverse, elem_of_reverse.
  - destruct (decide (c = sep)) as [->|Hne].
    + apply Forall_cons. split.
      * by rewrite rev_reverse, elem_of_reverse.
      * apply IH. apply not_elem_of_nil.
    + apply IH. rewrite not_elem_of_cons. split; [congruence|done].
Qed.

Lemma split_from_app sep cur f s :
  sep ∉ f -> split_from sep cur (f ++ s) = split_from sep (rev f ++ cur) s.
Proof.
  revert cur; induction f as [|c f IH]; intros cur Hf; [done|].
  apply not_elem_of_cons in Hf as [Hc Hf]. simpl.
  rewrite decide_False by done. rewrite IH by done.
  by rewrite <- app_assoc.
Qed.

(** Splitting what [join] built gives the fields back. *)
Lemma split_join sep fields :
  fields <> [] ->
  Forall (fun f => sep ∉ f) fields ->
  split sep (join sep fields) = fields.
Proof.
  unfold split. induction fields as [|f fields IH]; [done|].
  intros _ Hall. apply Forall_cons in Hall as [Hf Hall].
  destruct fields as [|g fields].
  - simpl. rewrite <- (app_nil_r f) at 1. rewrite split_from_app by done.
    simpl. by rewrite app_nil_r, rev_involutive.
  - change (join sep (f :: g :: fields))
      with (f ++ sep :: join sep (g :: fields)).
    rewrite split_from_app by done. simpl.
    rewrite decide_True by done.
    rewrite app_nil_r, rev_involutive. f_equal. by apply IH.
Qed.

Lemma padded_fields fields ids :
  Forall2 padded fields ids ->
  Forall clean_id ids ->
  Forall (fun f => comma ∉ f) fields /\
  strip <$> List.filter (fun cid => truthy (strip cid)) fields = ids.
Proof.
  induction 1 as [|f cid fields ids Hpad _ IH]; intros Hclean;
    [split; [constructor|done]|].
  apply Forall_cons in Hclean as [Hcid Hclean].
  destruct (IH Hclean) as [Hcomma Hids]. split.
  - apply Forall_cons. split; [|done].
    destruct Hpad as (l & r & -> & Hl & Hr).
    destruct Hcid as (_ & Hc & _).
    rewrite !elem_of_app. intros [H|[H|H]]; [|done|].
    + by apply (proj1 (Forall_forall _ _) Hl) in H.
    + by apply (proj1 (Forall_forall _ _) Hr) in H.
  - assert (Hs : strip f = cid) by (by apply strip_padded).
    destruct Hcid as (Hne & _). simpl. rewrite Hs.
    destruct cid as [|x cid]; [done|].
    cbn [truthy]. rewrite fmap_cons. by rewrite Hs, Hids.
Qed.

(** X4: [get_telegram_credentials] answers all or nothing: either no token
    and no recipient, or a non-empty token with at least one chat id, and
    then every chat id is non-empty, free of commas and free of white
    space at both ends. *)
Theorem get_telegram_credentials_all_or_nothing env :
  match get_telegram_credentials env with
  | (None, chat_ids) => chat_ids = []
  | (Some token, chat_ids) =>
      token <> [] /\ chat_ids <> [] /\ Forall clean_id chat_ids
  end.
Proof.
  unfold get_telegram_credentials.
  set (fields := split comma (default [] (TELEGRAM_CHAT_IDS env))).
  assert (Hfields : Forall (fun f => comma ∉ f) fields).
  { apply split_from_fields. apply not_elem_of_nil. }
  assert (Hclean : Forall clean_id
            (strip <$> List.filter (fun cid => truthy (strip cid)) fields)).
  { apply Forall_fmap, Forall_forall. intros f Hf.
    apply list_elem_of_In, filter_In in Hf as [Hin Htrue].
    apply list_elem_of_In in Hin.
    split; [by apply truthy_true|]. split; [|split].
    - intros Hc. apply strip_elem in Hc.
      by apply (proj1 (Forall_forall _ _) Hfields) in Hin.
    - apply strip_head.
    - apply strip_last. }
  destruct (TELEGRAM_TOKEN env) as [token|]; simpl; [|done].
  destruct (truthy token) eqn:Ht; simpl; [|done].
  destruct (truthy (strip <$> _)) eqn:Hids; simpl; [|done].
  split; [by apply truthy_true|]. split; [by apply truthy_true|done].
Qed.

(** X5: a token and a comma-separated list of chat ids, each with any
    white space around it, are read back as that token and exactly those
    chat ids, in order. *)
Theorem get_telegram_credentials_reads_back token fields chat_ids :
  token <> [] ->
  fields <> [] ->
  Forall2 padded fields chat_ids ->
  Forall clean_id chat_ids ->
  get_telegram_credentials
    {| TELEGRAM_TOKEN := Some token;
       TELEGRAM_CHAT_IDS := Some (join comma fields) |}
  = (Some token, chat_ids).
Proof.
  intros Htoken Hfields Hpad Hclean.
  destruct (padded_fields fields chat_ids Hpad Hclean) as [Hcomma Hids].
  unfold get_telegram_credentials. cbn [TELEGRAM_TOKEN TELEGRAM_CHAT_IDS].
  change (default [] (Some (join comma fields))) with (join comma fields).
  rewrite split_join by done. rewrite Hids.
  apply truthy_true in Htoken. cbn [truthy_opt]. rewrite Htoken.
  assert (Hne : truthy chat_ids = true).
  { apply truthy_true. intros ->. apply Forall2_nil_inv_r in Hpad. done. }
  by rewrite Hne.
Qed.

Lemma get_telegram_credentials_reads_back_witness :
  lit "123:abc" <> [] /\
  [lit " 111"; lit "222 "; lit "333"] <> [] /\
  Forall2 padded [lit " 111"; lit "222 "; lit "333"]
                 [lit "111"; lit "222"; lit "333"] /\
  Forall clean_id [lit "111"; lit "222"; lit "333"] /\
  get_telegram_credentials
    {| TELEGRAM_TOKEN := Some (lit "123:abc");
       TELEGRAM_CHAT_IDS :=
         Some (join comma [lit " 111"; lit "222 "; lit "333"]) |}
  = (Some (lit "123:abc"), [lit "111"; lit "222"; lit "333"]).
Proof.
  assert (H1 : lit "123:abc" <> []) by discriminate.
  assert (H2 : [lit " 111"; lit "222 "; lit "333"] <> []) by discriminate.
  assert (H3 : Forall2 padded [lit " 111"; lit "222 "; lit "333"]
                              [lit "111"; lit "222"; lit "333"]).
  { repeat constructor.
    - exists (lit " "), []. repeat constructor.
    - exists [], (lit " "). repeat constructor.
    - exists [], []. repeat constructor. }
  assert (H4 : Forall clean_id [lit "111"; lit "222"; lit "333"]).
  { repeat constructor; try discriminate;
      try (intros x [= <-]; reflexivity);
      intros Hin; vm_compute in Hin;
      repeat (apply elem_of_cons in Hin as [Hin|Hin]; [discriminate|]);
      by apply not_elem_of_nil in Hin. }
  split; [exact H1|]. split; [exact H2|]. split; [exact H3|].
  split; [exact H4|].
  exact (get_telegram_credentials_reads_back _ _ _ H1 H2 H3 H4).
Defined.

(** ** send_telegram_notification, further *)

Lemma delivered_le outs : delivered outs <= length outs.
Proof. unfold delivered. apply length_filter. Qed.

Lemma get_telegram_credentials_none env ids :
  get_telegram_credentials env = (None, ids) -> ids = [].
Proof.
  unfold get_telegram_credentials.
  destruct (TELEGRAM_TOKEN env) as [t|]; simpl; [|by intros [= <-]].
  destruct (negb (truthy t) || _); [by intros [= <-]|done].
Qed.

(** X6: whatever the environment and whatever the API answers,
    [send_telegram_notification] returns (it never raises); it makes as
    many requests as it reports attempts, all with the given message; the
    successes it reports never exceed the attempts; without usable
    credentials it reports (0, 0) and makes no request; and it leaves the
    database alone. *)
Theorem send_telegram_notification_counts w message st :
  exists success_count total_attempts reqs,
    send_telegram_notification w message st =
      (Ok (success_count, total_attempts), posted reqs st) /\
    success_count <= total_attempts /\
    length reqs = total_attempts /\
    Forall (is_post_of message) reqs /\
    total_attempts = length (get_telegram_credentials (environ w)).2 /\
    ((get_telegram_credentials (environ w)).1 = None ->
       total_attempts = 0 /\ posted reqs st = st).
Proof.
  destruct (get_telegram_credentials (environ w)) as [[token|] ids] eqn:Hcred.
  - rewrite (notify_run w message token ids st Hcred).
    eexists _, _, _. split; [reflexivity|].
    split; [|split; [|split; [|split; [done|done]]]].
    + etrans; [apply delivered_le|]. unfold answers.
      by rewrite length_fmap, length_seq.
    + unfold requests. by rewrite length_fmap.
    + unfold requests. apply Forall_fmap, Forall_forall. done.
  - apply get_telegram_credentials_none in Hcred as Hids. subst ids.
    unfold send_telegram_notification. rewrite Hcred.
    exists 0, 0, []. rewrite posted_nil. repeat split; done.
Qed.

(** ** fetch_headlines, further *)

(** The inner loop only appends: what it adds is made, headline by
    headline, from elements picked in document order. *)
Lemma for_tags_order tags hs :
  exists picked new,
    for_tags tags hs = hs ++ new /\
    picked `sublist_of` tags /\
    Forall2 made_from picked new.
Proof.
  revert hs; induction tags as [|a tags IH]; intros hs.
  - exists [], []. by rewrite app_nil_r.
  - simpl. destruct (consider_cases a hs) as [H|(h & _ & Hmade & _ & H)];
      rewrite H.
    + destruct (IH hs) as (picked & new & -> & Hsub & Hall).
      exists picked, new. split; [done|]. split; [by apply sublist_cons|done].
    + destruct (20 <=? length (hs ++ [h])).
      * exists [a], [h]. split; [done|]. split.
        -- apply sublist_skip, sublist_nil_l.
        -- constructor; [done|constructor].
      * destruct (IH (hs ++ [h])) as (picked & new & -> & Hsub & Hall).
        exists (a :: picked), (h :: new). rewrite <- app_assoc.
        split; [done|]. split; [by apply sublist_skip|by constructor].
Qed.

(** X7: the headlines [fetch_headlines] returns follow the document: they
    are made, one for one and in the same order, from elements that one
    of the four rules matched, each headline with the text of its element
    and with its link, as it stands or made absolute. *)
Theorem fetch_headlines_document_order w st r soup :
  bbc w = GetReturns r ->
  parsed r = Some soup ->
  exists hs st',
    fetch_headlines w st = (Ok hs, st') /\
    (hs = [] \/
     exists s picked,
       s ∈ selectors /\
       picked `sublist_of` soup s /\
       Forall2 made_from picked hs).
Proof.
  intros Hbbc Hparsed. rewrite fetch_headlines_run, Hbbc, Hparsed.
  case_bool_decide; [eexists [], _; split; [done|by left]|].
  destruct (for_selectors_result soup selectors (emit [Get BBC_URL] st))
    as (hs & st' & -> & Hhs).
  exists hs, st'. split; [done|].
  destruct Hhs as [->|(s & Hs & ->)]; [by left|]. right.
  destruct (for_tags_order (soup s) []) as (picked & new & -> & Hsub & Hall).
  exists s, picked. done.
Qed.

Lemma fetch_headlines_document_order_witness :
  bbc (Sample.world Sample.no_credentials (Sample.serves Sample.both_rules)
         Sample.all_ok)
    = GetReturns {| status_code := 200; parsed := Some Sample.both_rules |} /\
  parsed {| status_code := 200; parsed := Some Sample.both_rules |}
    = Some Sample.both_rules /\
  exists hs st',
    fetch_headlines
      (Sample.world Sample.no_credentials (Sample.serves Sample.both_rules)
         Sample.all_ok) (initial Sample.fresh) = (Ok hs, st') /\
    (hs = [] \/
     exists s picked,
       s ∈ selectors /\
       picked `sublist_of` Sample.both_rules s /\
       Forall2 made_from picked hs).
Proof.
  split; [reflexivity|]. split; [reflexivity|].
  exact (fetch_headlines_document_order
           (Sample.world Sample.no_credentials
              (Sample.serves Sample.both_rules) Sample.all_ok)
           (initial Sample.fresh)
           {| status_code := 200; parsed := Some Sample.both_rules |}
           Sample.both_rules eq_refl eq_refl).
Defined.

Lemma for_tags_full tags more hs :
  length hs < 20 ->
  length (for_tags tags hs) = 20 ->
  for_tags (tags ++ more) hs = for_tags tags hs.
Proof.
  revert hs; induction tags as [|a tags IH]; intros hs Hlt Hfull.
  - simpl in Hfull. lia.
  - simpl in *. destruct (consider_cases a hs) as [H|(h & _ & _ & _ & H)];
      rewrite H in *; [by apply IH|].
    destruct (20 <=? length (hs ++ [h])) eqn:Hle; [done|].
    apply Nat.leb_gt in Hle. by apply IH.
Qed.

(** X8: the cap of 20 ends the reading of the page: once a rule has
    yielded 20 headlines, whatever follows in the document has no effect
    on the result. *)
Theorem for_tags_stops_at_cap tags more :
  length (for_tags tags []) = 20 ->
  for_tags (tags ++ more) [] = for_tags tags [].
Proof. intros H. apply for_tags_full; [simpl; lia|done]. Qed.

Lemma for_tags_stops_at_cap_witness :
  length (for_tags Sample.twenty []) = 20 /\
  for_tags (Sample.twenty ++ [Sample.cup; Sample.storm]) [] =
  for_tags Sample.twenty [].
Proof.
  assert (H : length (for_tags Sample.twenty []) = 20)
    by (vm_compute; reflexivity).
  split; [exact H|].
  exact (for_tags_stops_at_cap Sample.twenty [Sample.cup; Sample.storm] H).
Defined.

(** X9: when no rule accepts anything, all four rules have been
    consulted, in their order of priority, and the result is empty. *)
Theorem fetch_headlines_all_rules_tried w st r soup :
  bbc w = GetReturns r ->
  ~ (400 <= status_code r < 600)%Z ->
  parsed r = Some soup ->
  Forall (fun s => for_tags (soup s) [] = []) selectors ->
  fetch_headlines w st =
    (Ok [], emit (Get BBC_URL :: (Select <$> selectors)) st).
Proof.
  intros Hbbc Hstatus Hparsed Hall.
  rewrite fetch_headlines_run, Hbbc, Hparsed.
  rewrite bool_decide_eq_false_2 by done.
  rewrite for_selectors_exhausted by done. by rewrite emit_emit.
Qed.

Lemma fetch_headlines_all_rules_tried_witness :
  bbc (Sample.world Sample.no_credentials (Sample.serves Sample.barren)
         Sample.all_ok)
    = GetReturns {| status_code := 200; parsed := Some Sample.barren |} /\
  ~ (400 <= 200 < 600)%Z /\
  Forall (fun s => for_tags (Sample.barren s) [] = []) selectors /\
  fetch_headlines
    (Sample.world Sample.no_credentials (Sample.serves Sample.barren)
       Sample.all_ok) (initial Sample.fresh) =
    (Ok [], emit (Get BBC_URL :: (Select <$> selectors))
              (initial Sample.fresh)).
Proof.
  assert (H1 : ~ (400 <= 200 < 600)%Z) by lia.
  assert (H2 : Forall (fun s => for_tags (Sample.barren s) [] = []) selectors)
    by (repeat constructor).
  split; [reflexivity|]. split; [exact H1|]. split; [exact H2|].
  exact (fetch_headlines_all_rules_tried
           (Sample.world Sample.no_credentials
              (Sample.serves Sample.barren) Sample.all_ok)
           (initial Sample.fresh)
           {| status_code := 200; parsed := Some Sample.barren |}
           Sample.barren eq_refl H1 eq_refl H2).
Defined.

(** ** is_first_run and setup_database, further *)

(** X10: on a closed connection, [is_first_run] never raises, leaves the
    stored records as they were, makes no request, and leaves no
    connection open; and the answer is [False] exactly when the file can
    be opened and holds at least one record. *)
Theorem is_first_run_false_iff st :
  session st = None ->
  exists first st',
    is_first_run st = (Ok first, st') /\
    records (disk st') = records (disk st) /\
    session st' = None /\
    posts st' = posts st /\
    (first = false <->
       openable (disk st) = true /\ records (disk st) <> []).
Proof.
  intros Hs. rewrite is_first_run_run by done.
  eexists _, _. split; [reflexivity|]. repeat split; try done.
  - unfold first_run in H. by destruct (openable (disk st)).
  - unfold first_run, records in *. destruct (openable (disk st)); [|done].
    destruct (headlines_table (disk st)) as [t|]; [|done].
    simpl in *. by destruct (rows t).
  - intros [Ho Hr]. unfold first_run, records in *. rewrite Ho.
    destruct (headlines_table (disk st)) as [t|]; [|done].
    simpl in *. by destruct (rows t).
Qed.

Lemma is_first_run_false_iff_witness :
  session (Sample.closed Sample.seen_storm) = None /\
  openable (disk (Sample.closed Sample.seen_storm)) = true /\
  records (disk (Sample.closed Sample.seen_storm)) <> [] /\
  exists first st',
    is_first_run (Sample.closed Sample.seen_storm) = (Ok first, st') /\
    records (disk st') = records (disk (Sample.closed Sample.seen_storm)) /\
    session st' = None /\
    posts st' = posts (Sample.closed Sample.seen_storm) /\
    first = false.
Proof.
  assert (Hs : session (Sample.closed Sample.seen_storm) = None)
    by reflexivity.
  assert (Ho : openable (disk (Sample.closed Sample.seen_storm)) = true)
    by reflexivity.
  assert (Hr : records (disk (Sample.closed Sample.seen_storm)) <> [])
    by discriminate.
  split; [exact Hs|]. split; [exact Ho|]. split; [exact Hr|].
  destruct (is_first_run_false_iff (Sample.closed Sample.seen_storm) Hs)
    as (first & st' & H1 & H2 & H3 & H4 & H5).
  exists first, st'.
  split; [exact H1|]. split; [exact H2|]. split; [exact H3|].
  split; [exact H4|]. exact (proj2 H5 (conj Ho Hr)).
Defined.

(** X11: [setup_database] never raises and is safe to call on a file that
    already holds headlines: it hands back no connection exactly when the
    file cannot be opened or the missing table cannot be created; either
    way the records on file are the same as before, and after a success
    the table exists. *)
Theorem setup_database_keeps_records st :
  session st = None ->
  exists conn st',
    setup_database st = (Ok conn, st') /\
    records (disk st') = records (disk st) /\
    (conn = None <-> init_fails (disk st)) /\
    (conn <> None -> is_Some (headlines_table (disk st'))).
Proof.
  intros Hs. destruct (init_fails_dec (disk st)) as [Hfail|Hok].
  - destruct (setup_database_fails st Hs Hfail) as (st' & -> & Hd & _).
    exists None, st'. rewrite Hd. repeat split; done.
  - rewrite (setup_database_ok st Hs Hok).
    eexists _, _. split; [reflexivity|]. split; [|split; [split; [done|]|]].
    + unfold records, initial_table. simpl.
      by destruct (headlines_table (disk st)).
    + intros Hfail. by destruct Hok.
    + intros _. simpl. by eexists.
Qed.

Lemma setup_database_keeps_records_witness :
  session (Sample.closed Sample.seen_storm) = None /\
  exists conn st',
    setup_database (Sample.closed Sample.seen_storm) = (Ok conn, st') /\
    records (disk st') = records (disk (Sample.closed Sample.seen_storm)) /\
    (conn = None <-> init_fails (disk (Sample.closed Sample.seen_storm))) /\
    (conn <> None -> is_Some (headlines_table (disk st'))).
Proof.
  split; [reflexivity|].
  exact (setup_database_keeps_records (Sample.closed Sample.seen_storm) eq_refl).
Defined.

(** ** save_headlines, further *)

Lemma saveNew_prefix clock t hs : rows t `prefix_of` rows (saveNew clock t hs).1.
Proof.
  revert t; induction hs as [|c hs IH]; intros t; simpl; [done|].
  destruct (decide (known t (title c))); [apply IH|].
  specialize (IH (with_record clock t c)).
  destruct (saveNew clock (with_record clock t c) hs) as [t' new].
  simpl in *. etrans; [|exact IH]. by apply prefix_app_r.
Qed.

Lemma with_record_numbered clock t c :
  well_numbered t -> well_numbered (with_record clock t c).
Proof.
  intros [Hnd Hle]. unfold well_numbered, with_record; simpl. split.
  - rewrite fmap_app. apply NoDup_app. split; [done|].
    split; [|apply NoDup_singleton].
    intros i Hi Hin. apply list_elem_of_singleton in Hin. subst.
    apply list_elem_of_fmap in Hi as (r & Hr & Hin).
    apply (proj1 (Forall_forall _ _) Hle) in Hin. simpl in *. lia.
  - apply Forall_app. split.
    + eapply Forall_impl; [exact Hle|]. intros r Hr. simpl in *. lia.
    + apply Forall_singleton. simpl. lia.
Qed.

Lemma saveNew_numbered clock t hs :
  well_numbered t -> well_numbered (saveNew clock t hs).1.
Proof.
  revert t; induction hs as [|c hs IH]; intros t Ht; simpl; [done|].
  destruct (decide (known t (title c))); [by apply IH|].
  specialize (IH (with_record clock t c) (with_record_numbered clock t c Ht)).
  by destruct (saveNew clock (with_record clock t c) hs) as [t' new].
Qed.

(** X12: calls of [save_headlines] never change or remove a record and
    never reuse an id: after any sequence of calls on a writable
    connection, the rows the table had are still its first rows, in the
    same order, and if the ids were distinct and within the AUTOINCREMENT
    counter before, they are so afterwards. *)
Theorem save_headlines_append_only w conn batches t st :
  session st = Some (Some t) ->
  writable (disk st) = true ->
  exists news st' t',
    save_each w conn batches st = (Ok news, st') /\
    session st' = Some (Some t') /\
    rows t `prefix_of` rows t' /\
    (well_numbered t -> well_numbered t').
Proof.
  revert t st; induction batches as [|hs batches IH]; intros t st Hs Hw.
  - by exists [], st, t.
  - destruct (save_headlines_next w conn hs t st Hs Hw)
      as (st1 & Hrun & Hs1 & Hw1).
    destruct (IH _ st1 Hs1 Hw1) as (news & st' & t' & Hrest & Hs' & Hpre & Hnum).
    exists ((saveNew (now w) t hs).2 :: news), st', t'.
    split; [|split; [done|split]].
    + simpl. exec. rewrite Hrun. exec. by rewrite Hrest.
    + etrans; [apply saveNew_prefix|exact Hpre].
    + intros H. by apply Hnum, saveNew_numbered.
Qed.

Lemma save_headlines_append_only_witness :
  session (Sample.opened Sample.seen_storm) = Some (Some Sample.seen_storm) /\
  writable (disk (Sample.opened Sample.seen_storm)) = true /\
  well_numbered Sample.seen_storm /\
  exists news st' t',
    save_each (Sample.world Sample.no_credentials GetRaises Sample.all_ok) Conn
      [[Sample.h_budget; Sample.h_storm]; [Sample.h_budget_live; Sample.h_cup]]
      (Sample.opened Sample.seen_storm) = (Ok news, st') /\
    session st' = Some (Some t') /\
    rows Sample.seen_storm `prefix_of` rows t' /\
    (well_numbered Sample.seen_storm -> well_numbered t').
Proof.
  assert (H : well_numbered Sample.seen_storm).
  { split; [apply NoDup_singleton|]. apply Forall_singleton. simpl. lia. }
  split; [reflexivity|]. split; [reflexivity|]. split; [exact H|].
  exact (save_headlines_append_only _ Conn _ Sample.seen_storm
           (Sample.opened Sample.seen_storm) eq_refl eq_refl).
Defined.






(** X14: two calls of [save_headlines] one after the other do what one
    call with the two candidate lists joined does: the headlines returned
    are the same, in the same order, and so are the table the connection
    sees and the file. *)
Theorem save_headlines_in_two_calls w conn hs1 hs2 t st :
  session st = Some (Some t) ->
  writable (disk st) = true ->
  exists new1 st1 new2 st2 new st',
    save_headlines w conn hs1 st = (Ok new1, st1) /\
    save_headlines w conn hs2 st1 = (Ok new2, st2) /\
    save_headlines w conn (hs1 ++ hs2) st = (Ok new, st') /\
    new = new1 ++ new2 /\
    session st2 = session st' /\
    disk st2 = disk st'.
Proof.
  intros Hs Hw.
  pose proof (saveNew_app (now w) t hs1 hs2) as Happ.
  destruct (save_headlines_after w conn hs1 t st Hs Hw)
    as (st1 & Hr1 & Hs1 & Hw1 & Hd1).
  destruct (save_headlines_after w conn hs2 _ st1 Hs1 Hw1)
    as (st2 & Hr2 & Hs2 & Hw2 & Hd2).
  destruct (save_headlines_after w conn (hs1 ++ hs2) t st Hs Hw)
    as (st' & Hr & Hs' & Hw' & Hd').
  eexists _, st1, _, st2, _, st'.
  split; [exact Hr1|]. split; [exact Hr2|]. split; [exact Hr|].
  rewrite Happ in *. cbn [fst snd] in *.
  split; [done|]. split; [by rewrite Hs2, Hs'|].
  rewrite Hd2, Hd'. destruct hs1 as [|c1 hs1], hs2 as [|c2 hs2];
    cbn [app] in *; rewrite ?Hd1, ?app_nil_r; cbn [openable]; try done.
Qed.

Lemma save_headlines_in_two_calls_witness :
  session (Sample.opened Sample.seen_storm) = Some (Some Sample.seen_storm) /\
  writable (disk (Sample.opened Sample.seen_storm)) = true /\
  exists new1 st1 new2 st2 new st',
    save_headlines (Sample.world Sample.no_credentials GetRaises Sample.all_ok)
      Conn [Sample.h_budget; Sample.h_storm]
      (Sample.opened Sample.seen_storm) = (Ok new1, st1) /\
    save_headlines (Sample.world Sample.no_credentials GetRaises Sample.all_ok)
      Conn [Sample.h_budget_live; Sample.h_cup] st1 = (Ok new2, st2) /\
    save_headlines (Sample.world Sample.no_credentials GetRaises Sample.all_ok)
      Conn ([Sample.h_budget; Sample.h_storm]
            ++ [Sample.h_budget_live; Sample.h_cup])
      (Sample.opened Sample.seen_storm) = (Ok new, st') /\
    new = new1 ++ new2 /\
    session st2 = session st' /\
    disk st2 = disk st'.
Proof.
  split; [reflexivity|]. split; [reflexivity|].
  exact (save_headlines_in_two_calls _ Conn _ _ Sample.seen_storm
           (Sample.opened Sample.seen_storm) eq_refl eq_refl).
Defined.

(** The loop of [save_headlines] on a connection that cannot write: it
    gets through the titles the table holds and raises at the first title
    it does not hold; the connection sees what it saw. *)
Lemma for_items_read_only w items acc t st :
  session st = Some (Some t) ->
  writable (disk st) = false ->
  exists evs,
    for_items w items acc st =
      (if decide (Forall (fun c => known t (title c)) items)
       then Ok acc else Raise OperationalError,
       emit evs st) /\
    Forall about_headlines evs /\
    Forall (fun e => ~ is_post e) evs.
Proof.
  revert st; induction items as [|c items IH]; intros st Hs Hw.
  - exists []. rewrite emit_nil. rewrite decide_True by constructor. done.
  - simpl. unfold execute_select_id, execute_insert, the_table. exec.
    rewrite Hs. exec.
    destruct (decide (known t (title c))) as [Hk|Hk].
    + apply select_id_found in Hk as Hf. destruct Hf as [[i r] ->]. simpl.
      destruct (IH (emit [Execute (SelectIdByTitle (title c))] st))
        as (evs & -> & Hall & Hquiet); [done|done|].
      exists (Execute (SelectIdByTitle (title c)) :: evs).
      rewrite emit_emit.
      split; [|split; [by constructor|constructor; [simpl; tauto|done]]].
      f_equal. destruct (decide (Forall _ items)) as [Hi|Hi].
      * by rewrite decide_True by (by constructor).
      * rewrite decide_False; [done|]. by intros [_ ?]%Forall_cons.
    + destruct (list_find _ (rows t)) eqn:Hf.
      { exfalso. apply Hk, select_id_found. by rewrite Hf. }
      simpl. exec. rewrite Hs. exec. rewrite Hw. exec.
      exists [Execute (SelectIdByTitle (title c));
              Execute (InsertHeadline (title c) (url c))].
      split; [|split; [by repeat constructor|
                       repeat constructor; simpl; tauto]].
      rewrite decide_False by (by intros [? _]%Forall_cons).
      f_equal. unfold emit; simpl. by rewrite <- app_assoc.
Qed.

(** [save_headlines] on a connection that cannot write. *)
Lemma save_headlines_read_only_run w conn hs t st :
  session st = Some (Some t) ->
  writable (disk st) = false ->
  exists evs,
    Forall about_headlines evs /\
    Forall (fun e => ~ is_post e) evs /\
    save_headlines w conn hs st =
      if decide (Forall (fun c => known t (title c)) hs)
      then (Ok [], match hs with
                   | [] => st
                   | _ :: _ => emit evs (committed t st)
                   end)
      else (Raise OperationalError, emit evs st).
Proof.
  intros Hs Hw. unfold save_headlines.
  destruct hs as [|c hs].
  - exists []. rewrite decide_True by constructor. done.
  - cbn [truthy negb]. unfold commit. exec.
    destruct (for_items_read_only w (c :: hs) [] t st Hs Hw)
      as (evs & -> & Hall & Hquiet).
    destruct (decide (Forall _ (c :: hs))).
    + exec. rewrite Hs. exec. exists (evs ++ [Commit]).
      split; [apply Forall_app; split; [done|by repeat constructor]|].
      split; [apply Forall_app; split;
              [done|repeat constructor; simpl; tauto]|].
      f_equal. unfold emit, committed. cbn [disk session posts trace].
      by rewrite Hs, <- app_assoc.
    + by exists evs.
Qed.

(** X15: on a database that cannot be written, [save_headlines] returns
    the empty list when the table holds every candidate's title, and
    otherwise raises at the first title the table does not hold; in both
    cases the file keeps the table it had. *)
Theorem save_headlines_read_only w conn hs t st :
  session st = Some (Some t) ->
  headlines_table (disk st) = Some t ->
  writable (disk st) = false ->
  exists st',
    save_headlines w conn hs st =
      (if decide (Forall (fun c => known t (title c)) hs)
       then Ok [] else Raise OperationalError, st') /\
    headlines_table (disk st') = Some t /\
    session st' = Some (Some t) /\
    posts st' = posts st /\
    exists evs, trace st' = trace st ++ evs /\ Forall about_headlines evs.
Proof.
  intros Hs Ht Hw.
  destruct (save_headlines_read_only_run w conn hs t st Hs Hw)
    as (evs & Hall & _ & ->).
  destruct (decide (Forall _ hs)).
  - destruct hs as [|c hs].
    + exists st. repeat split; try done. exists []. by rewrite app_nil_r.
    + eexists. split; [reflexivity|]. repeat split; try done. by exists evs.
  - eexists. split; [reflexivity|]. repeat split; try done. by exists evs.
Qed.

Lemma save_headlines_read_only_witness :
  session (Sample.opened_read_only Sample.seen_storm)
    = Some (Some Sample.seen_storm) /\
  headlines_table (disk (Sample.opened_read_only Sample.seen_storm))
    = Some Sample.seen_storm /\
  writable (disk (Sample.opened_read_only Sample.seen_storm)) = false /\
  exists st',
    save_headlines (Sample.world Sample.no_credentials GetRaises Sample.all_ok)
      Conn [Sample.h_storm; Sample.h_cup]
      (Sample.opened_read_only Sample.seen_storm) =
      (if decide (Forall (fun c => known Sample.seen_storm (title c))
                         [Sample.h_storm; Sample.h_cup])
       then Ok [] else Raise OperationalError, st') /\
    headlines_table (disk st') = Some Sample.seen_storm /\
    session st' = Some (Some Sample.seen_storm) /\
    posts st' = posts (Sample.opened_read_only Sample.seen_storm) /\
    exists evs,
      trace st' = trace (Sample.opened_read_only Sample.seen_storm) ++ evs /\
      Forall about_headlines evs.
Proof.
  split; [reflexivity|]. split; [reflexivity|]. split; [reflexivity|].
  exact (save_headlines_read_only _ Conn _ Sample.seen_storm
           (Sample.opened_read_only Sample.seen_storm)
           eq_refl eq_refl eq_refl).
Defined.

(** ** main, further *)

(** The guarded part of [main] on a writable connection. *)
Lemma main_try_writable w conn t st hs cs :
  session st = Some (Some t) ->
  writable (disk st) = true ->
  (forall s, fetch_headlines w s =
             (Ok hs, emit (Get BBC_URL :: (Select <$> cs)) s)) ->
  main_try w conn (get_telegram_credentials (environ w)).1
    (get_telegram_credentials (environ w)).2 st =
    (Ok tt,
     posted (headline_requests w (saveNew (now w) t hs).2)
       match hs with
       | [] => emit (Get BBC_URL :: (Select <$> cs)) st
       | _ :: _ =>
           emit (Get BBC_URL :: (Select <$> cs)
                 ++ save_queries (now w) t hs ++ [Commit])
                (committed (saveNew (now w) t hs).1 st)
       end).
Proof.
  intros Hs Hw Hfetch. unfold main_try. unfold bind at 1. rewrite Hfetch.
  destruct hs as [|c hs].
  { cbn [truthy negb]. unfold ret, headline_requests. simpl.
    by rewrite posted_nil. }
  cbn [truthy negb]. unfold bind at 1.
  rewrite (save_headlines_run w conn (c :: hs) t) by done.
  assert (Hst : forall new,
    emit (save_queries (now w) t (c :: hs) ++ [Commit])
      (committed new (emit (Get BBC_URL :: (Select <$> cs)) st)) =
    emit (Get BBC_URL :: (Select <$> cs)
          ++ save_queries (now w) t (c :: hs) ++ [Commit])
      (committed new st)).
  { intros new. unfold emit, committed. cbn [disk session posts trace].
    f_equal. repeat (rewrite <- app_assoc || rewrite <- app_comm_cons).
    reflexivity. }
  rewrite Hst. unfold headline_requests.
  destruct (saveNew (now w) t (c :: hs)) as [t' new]. cbn [fst snd].
  destruct new as [|n new]; [by rewrite posted_nil|].
  cbn [truthy].
  destruct (get_telegram_credentials (environ w)) as [[token|] ids] eqn:Hcred;
    cbn [fst snd truthy_opt].
  - destruct (get_telegram_credentials_some _ _ _ Hcred) as [-> ->].
    cbn [andb]. unfold bind at 1.
    by rewrite (notify_run w _ token ids) by done.
  - cbn [andb]. by rewrite posted_nil.
Qed.

(** A run on a file that allows store initialization and writing. *)
Lemma run_writable w d hs cs :
  ~ init_fails d ->
  writable d = true ->
  (forall s, fetch_headlines w s =
             (Ok hs, emit (Get BBC_URL :: (Select <$> cs)) s)) ->
  run w d = (Ok tt, finished w d hs cs).
Proof.
  intros Hok Hw Hfetch. unfold run. rewrite main_run by done.
  rewrite setup_database_ok;
    [|by rewrite before_init_session|by rewrite before_init_disk].
  rewrite before_init_disk. cbn [initial disk].
  fold (after_init w d).
  unfold try_finally, try_except.
  rewrite (main_try_writable w Conn (initial_table d) _ hs cs);
    [|done|by unfold after_init; cbn; rewrite before_init_disk|done].
  unfold close. exec. done.
Qed.

Lemma save_queries_no_post clock t hs :
  Forall (fun e => ~ is_post e) (save_queries clock t hs).
Proof.
  revert t; induction hs as [|c hs IH]; intros t; simpl; [constructor|].
  destruct (decide (known t (title c)));
    repeat (apply Forall_cons; split; [simpl; tauto|]); apply IH.
Qed.

Lemma finished_trace w d hs cs :
  trace (finished w d hs cs) =
    trace (before_init w (initial d))
    ++ [Connect; Execute CreateTable; Commit]
    ++ Get BBC_URL :: (Select <$> cs)
    ++ match hs with
       | [] => []
       | _ :: _ => save_queries (now w) (initial_table d) hs ++ [Commit]
       end
    ++ headline_requests w (saveNew (now w) (initial_table d) hs).2
    ++ [Close].
Proof.
  unfold finished, after_init, viewing_none, posted, emit, committed.
  destruct hs as [|c hs]; cbn [trace];
    repeat (rewrite <- app_assoc || rewrite <- app_comm_cons); reflexivity.
Qed.

Lemma finished_disk w d hs cs :
  disk (finished w d hs cs) =
    {| openable := openable d; writable := writable d;
       headlines_table := Some (saveNew (now w) (initial_table d) hs).1 |}.
Proof.
  unfold finished, after_init, viewing_none, posted, emit, committed.
  destruct hs as [|c hs]; cbn [disk openable writable headlines_table];
    by rewrite before_init_disk.
Qed.

(** X16: without usable credentials the run still scrapes and stores: on
    a file that allows initialization and writing it makes no request to
    the Telegram API at all, returns normally, and leaves on file the
    table [saveNew] computes from the headlines of the page. *)
Theorem main_notifications_disabled w d :
  (get_telegram_credentials (environ w)).1 = None ->
  ~ init_fails d ->
  writable d = true ->
  exists hs cs,
    (forall st, fetch_headlines w st =
                (Ok hs, emit (Get BBC_URL :: (Select <$> cs)) st)) /\
    (run w d).1 = Ok tt /\
    Forall (fun e => ~ is_post e) (trace (run w d).2) /\
    headlines_table (disk (run w d).2) =
      Some (saveNew (now w) (initial_table d) hs).1.
Proof.
  intros Hcred Hok Hw.
  destruct (fetch_headlines_emits w) as (hs & cs & Hfetch).
  exists hs, cs. split; [done|].
  rewrite (run_writable w d hs cs Hok Hw Hfetch). cbn [fst snd].
  split; [done|]. split; [|by rewrite finished_disk].
  rewrite finished_trace.
  assert (Hbefore : before_init w (initial d) = initial d).
  { unfold before_init.
    by destruct (get_telegram_credentials (environ w)) as [[?|] ?]. }
  assert (Hreq : forall new, headline_requests w new = []).
  { intros new. unfold headline_requests.
    destruct (get_telegram_credentials (environ w)) as [[?|] ?]; [done|].
    by destruct new. }
  rewrite Hbefore, Hreq. cbn [trace initial app].
  repeat (apply Forall_cons; split; [simpl; tauto|]).
  apply Forall_app. split; [apply Forall_fmap, Forall_forall; simpl; tauto|].
  apply Forall_app. split; [|repeat constructor; simpl; tauto].
  destruct hs as [|c hs]; [constructor|].
  apply Forall_app. split; [apply save_queries_no_post|].
  repeat constructor; simpl; tauto.
Qed.

Lemma main_notifications_disabled_witness :
  (get_telegram_credentials (environ Sample.silent)).1 = None /\
  ~ init_fails Sample.fresh /\
  writable Sample.fresh = true /\
  exists hs cs,
    (forall st, fetch_headlines Sample.silent st =
                (Ok hs, emit (Get BBC_URL :: (Select <$> cs)) st)) /\
    (run Sample.silent Sample.fresh).1 = Ok tt /\
    Forall (fun e => ~ is_post e) (trace (run Sample.silent Sample.fresh).2) /\
    headlines_table (disk (run Sample.silent Sample.fresh).2) =
      Some (saveNew (now Sample.silent) (initial_table Sample.fresh) hs).1.
Proof.
  assert (H2 : ~ init_fails Sample.fresh).
  { intros [H|[_ H]]; discriminate H. }
  split; [reflexivity|]. split; [exact H2|]. split; [reflexivity|].
  exact (main_notifications_disabled Sample.silent Sample.fresh
           eq_refl H2 eq_refl).
Defined.

Lemma not_init_fails_openable d : ~ init_fails d -> openable d = true.
Proof.
  intros H. destruct (openable d) eqn:Ho; [done|]. destruct H. by left.
Qed.

(** X17: a second run on the file the first run left, with the same page,
    is silent: when the first run initialized and wrote the store and the
    page had at least one headline, the second run returns normally,
    makes no request to the Telegram API (neither the bootstrap message
    nor headlines), and leaves the file exactly as it found it. *)
Theorem main_second_run_silent w d :
  ~ init_fails d ->
  writable d = true ->
  exists hs cs,
    (forall st, fetch_headlines w st =
                (Ok hs, emit (Get BBC_URL :: (Select <$> cs)) st)) /\
    (hs <> [] ->
     (run w (disk (run w d).2)).1 = Ok tt /\
     Forall (fun e => ~ is_post e) (trace (run w (disk (run w d).2)).2) /\
     disk (run w (disk (run w d).2)).2 = disk (run w d).2).
Proof.
  intros Hok Hw.
  destruct (fetch_headlines_emits w) as (hs & cs & Hfetch).
  exists hs, cs. split; [done|]. intros Hne.
  rewrite (run_writable w d hs cs Hok Hw Hfetch). cbn [snd].
  rewrite finished_disk.
  set (t1 := (saveNew (now w) (initial_table d) hs).1).
  set (d1 := {| openable := openable d; writable := writable d;
                headlines_table := Some t1 |}).
  assert (Hopen : openable d = true) by by apply not_init_fails_openable.
  assert (Hok1 : ~ init_fails d1).
  { intros [H|[H _]]; simpl in H; congruence. }
  assert (Hfix : saveNew (now w) t1 hs = (t1, [])).
  { apply saveNew_all_known. intros c Hc. by apply saveNew_covers. }
  assert (Hrows : rows t1 <> []).
  { destruct hs as [|c hs]; [done|].
    assert (Hk : known t1 (title c)) by (apply saveNew_covers; by left).
    unfold known in Hk. intros Hnil. rewrite Hnil in Hk.
    by apply not_elem_of_nil in Hk. }
  rewrite (run_writable w d1 hs cs Hok1 Hw Hfetch). cbn [fst snd].
  split; [done|]. split.
  - rewrite finished_trace.
    change (initial_table d1) with t1. rewrite Hfix. cbn [fst snd].
    assert (Hreq : headline_requests w [] = []) by done. rewrite Hreq.
    assert (Hbefore : Forall (fun e => ~ is_post e)
                        (trace (before_init w (initial d1)))).
    { unfold before_init. cbn [initial disk].
      assert (Hfirst : first_run d1 = false).
      { unfold first_run, d1. cbn. rewrite Hopen. by destruct (rows t1). }
      rewrite Hfirst.
      destruct (get_telegram_credentials (environ w)) as [[?|] ?];
        [|constructor].
      unfold check_events. cbn. rewrite Hopen.
      repeat constructor; simpl; tauto. }
    apply Forall_app. split; [done|].
    repeat (apply Forall_cons; split; [simpl; tauto|]).
    apply Forall_app. split; [apply Forall_fmap, Forall_forall; simpl; tauto|].
    apply Forall_app. split; [|repeat constructor; simpl; tauto].
    destruct hs as [|c hs]; [constructor|].
    apply Forall_app. split; [apply save_queries_no_post|].
    repeat constructor; simpl; tauto.
  - rewrite finished_disk. change (initial_table d1) with t1.
    by rewrite Hfix.
Qed.

Lemma main_second_run_silent_witness :
  ~ init_fails Sample.fresh /\
  writable Sample.fresh = true /\
  exists hs cs,
    (forall st, fetch_headlines Sample.busy st =
                (Ok hs, emit (Get BBC_URL :: (Select <$> cs)) st)) /\
    (hs <> [] ->
     (run Sample.busy (disk (run Sample.busy Sample.fresh).2)).1 = Ok tt /\
     Forall (fun e => ~ is_post e)
       (trace (run Sample.busy (disk (run Sample.busy Sample.fresh).2)).2) /\
     disk (run Sample.busy (disk (run Sample.busy Sample.fresh).2)).2 =
       disk (run Sample.busy Sample.fresh).2).
Proof.
  assert (H1 : ~ init_fails Sample.fresh).
  { intros [H|[_ H]]; discriminate H. }
  split; [exact H1|]. split; [reflexivity|].
  exact (main_second_run_silent Sample.busy Sample.fresh H1 eq_refl).
Defined.

(** The second sample run makes no request, although the first made six
    (three for the bootstrap message, three for the headlines). *)
Example second_run_sample :
  length (filter (fun e => is_post e) (trace (run Sample.busy Sample.fresh).2)) = 6 /\
  filter (fun e => is_post e)
    (trace (run Sample.busy (disk (run Sample.busy Sample.fresh).2)).2) = [].
Proof. vm_compute. split; reflexivity. Qed.

Lemma main_try_nothing w conn token ids st cs :
  (forall s, fetch_headlines w s =
             (Ok [], emit (Get BBC_URL :: (Select <$> cs)) s)) ->
  main_try w conn token ids st =
    (Ok tt, emit (Get BBC_URL :: (Select <$> cs)) st).
Proof. intros Hfetch. unfold main_try, bind. by rewrite Hfetch. Qed.

Lemma run_nothing w d cs :
  ~ init_fails d ->
  (forall s, fetch_headlines w s =
             (Ok [], emit (Get BBC_URL :: (Select <$> cs)) s)) ->
  run w d =
    (Ok tt,
     emit [Close]
       (viewing_none (emit (Get BBC_URL :: (Select <$> cs)) (after_init w d)))).
Proof.
  intros Hok Hfetch. unfold run. rewrite main_run by done.
  rewrite setup_database_ok;
    [|by rewrite before_init_session|by rewrite before_init_disk].
  rewrite before_init_disk. cbn [initial disk]. fold (after_init w d).
  unfold try_finally, try_except.
  rewrite (main_try_nothing w Conn _ _ _ cs Hfetch).
  unfold close. exec. done.
Qed.

(** X18: when the page yields no headline (the site is down, the page
    does not parse, or no rule accepts anything), a run that initializes
    the store returns normally right after the fetch: it looks up and
    inserts nothing, makes no request about headlines, closes the
    connection, and the file holds the records it held. *)
Theorem main_no_headlines w d :
  ~ init_fails d ->
  (fetch_headlines w (initial d)).1 = Ok [] ->
  exists cs,
    run w d =
      (Ok tt,
       emit [Close]
         (viewing_none
            (emit (Get BBC_URL :: (Select <$> cs)) (after_init w d)))) /\
    trace (run w d).2 =
      trace (before_init w (initial d))
      ++ [Connect; Execute CreateTable; Commit]
      ++ Get BBC_URL :: (Select <$> cs) ++ [Close] /\
    records (disk (run w d).2) = records d.
Proof.
  intros Hok Hnone.
  destruct (fetch_headlines_emits w) as (hs & cs & Hfetch).
  rewrite Hfetch in Hnone. injection Hnone as ->.
  exists cs. rewrite (run_nothing w d cs Hok Hfetch). cbn [snd].
  split; [done|]. split.
  - unfold after_init, viewing_none, emit, committed. cbn [trace].
    repeat (rewrite <- app_assoc || rewrite <- app_comm_cons). reflexivity.
  - unfold after_init, viewing_none, emit, committed, records, initial_table.
    cbn. by destruct (headlines_table d).
Qed.

Lemma main_no_headlines_witness :
  ~ init_fails Sample.fresh /\
  (fetch_headlines Sample.notifying (initial Sample.fresh)).1 = Ok [] /\
  exists cs,
    run Sample.notifying Sample.fresh =
      (Ok tt,
       emit [Close]
         (viewing_none
            (emit (Get BBC_URL :: (Select <$> cs))
               (after_init Sample.notifying Sample.fresh)))) /\
    trace (run Sample.notifying Sample.fresh).2 =
      trace (before_init Sample.notifying (initial Sample.fresh))
      ++ [Connect; Execute CreateTable; Commit]
      ++ Get BBC_URL :: (Select <$> cs) ++ [Close] /\
    records (disk (run Sample.notifying Sample.fresh).2) = records Sample.fresh.
Proof.
  assert (H1 : ~ init_fails Sample.fresh).
  { intros [H|[_ H]]; discriminate H. }
  split; [exact H1|]. split; [reflexivity|].
  exact (main_no_headlines Sample.notifying Sample.fresh H1 eq_refl).
Defined.

Lemma run_starts w d :
  exists rest st',
    run w d = (Ok tt, st') /\
    trace st' = trace (before_init w (initial d)) ++ rest.
Proof.
  destruct (init_fails_dec d) as [Hfail|Hok].
  - destruct (run_init_fails w d Hfail) as (st' & Hrun & _ & Htr). eauto.
  - destruct (run_init_ok w d Hok) as (evs & st' & Hrun & Htr & _). eauto.
Qed.

(** X19: the bootstrap message is repeated for as long as the store stays
    empty: with usable credentials, a run that starts without records and
    finds no headline ends without records, and the next run again sends
    the bootstrap message to every recipient right after its first-run
    check. *)
Theorem main_bootstrap_repeats w d token ids :
  get_telegram_credentials (environ w) = (Some token, ids) ->
  records d = [] ->
  (fetch_headlines w (initial d)).1 = Ok [] ->
  records (disk (run w d).2) = [] /\
  exists rest,
    trace (run w (disk (run w d).2)).2 =
      check_events (disk (run w d).2)
      ++ requests token test_message ids ++ rest.
Proof.
  intros Hcred Hrec Hnone.
  assert (Hkept : records (disk (run w d).2) = []).
  { destruct (init_fails_dec d) as [Hfail|Hok].
    - destruct (run_init_fails w d Hfail) as (st' & -> & Hd & _).
      cbn [snd]. by rewrite Hd.
    - destruct (fetch_headlines_emits w) as (hs & cs & Hfetch).
      rewrite Hfetch in Hnone. injection Hnone as ->.
      rewrite (run_nothing w d cs Hok Hfetch). cbn [snd].
      unfold after_init, viewing_none, emit, committed, records,
        initial_table in *.
      cbn. by destruct (headlines_table d). }
  split; [done|].
  destruct (run_starts w (disk (run w d).2)) as (rest & st' & -> & Htr).
  exists rest. cbn [snd]. rewrite Htr. unfold before_init.
  cbn [initial disk]. rewrite Hcred, first_run_no_records by done.
  cbn [trace posted emit initial app]. by rewrite <- app_assoc.
Qed.

Lemma main_bootstrap_repeats_witness :
  get_telegram_credentials (environ Sample.notifying) =
    (Some (lit "123:abc"), [lit "111"; lit "222"; lit "333"]) /\
  records Sample.fresh = [] /\
  (fetch_headlines Sample.notifying (initial Sample.fresh)).1 = Ok [] /\
  records (disk (run Sample.notifying Sample.fresh).2) = [] /\
  exists rest,
    trace (run Sample.notifying (disk (run Sample.notifying Sample.fresh).2)).2 =
      check_events (disk (run Sample.notifying Sample.fresh).2)
      ++ requests (lit "123:abc") test_message [lit "111"; lit "222"; lit "333"]
      ++ rest.
Proof.
  split; [reflexivity|]. split; [reflexivity|]. split; [reflexivity|].
  exact (main_bootstrap_repeats Sample.notifying Sample.fresh _ _
           eq_refl eq_refl eq_refl).
Defined.

(** X20: a run that initializes the store always closes the connection:
    whatever the page, the credentials and the API do, and even when
    saving raises, [main] returns normally, the last call of the run is
    [conn.close()], and no connection is left open. *)
Theorem main_closes_connection w d :
  ~ init_fails d ->
  (run w d).1 = Ok tt /\
  session (run w d).2 = None /\
  last (trace (run w d).2) = Some Close.
Proof.
  intros Hok. unfold run. rewrite main_run by done.
  rewrite setup_database_ok;
    [|by rewrite before_init_session|by rewrite before_init_disk].
  match goal with
  | |- context [try_finally ?b ?c ?s] =>
      destruct (main_guarded_run w Conn
                  (get_telegram_credentials (environ w)).1
                  (get_telegram_credentials (environ w)).2 s)
        as (evs & st' & -> & Htr & _ & Hs)
  end.
  cbn [fst snd]. split; [done|]. split; [done|].
  rewrite Htr, app_assoc. apply last_snoc.
Qed.

Lemma main_closes_connection_witness :
  ~ init_fails Sample.stocked_read_only /\
  (run Sample.busy Sample.stocked_read_only).1 = Ok tt /\
  session (run Sample.busy Sample.stocked_read_only).2 = None /\
  last (trace (run Sample.busy Sample.stocked_read_only).2) = Some Close.
Proof.
  assert (H1 : ~ init_fails Sample.stocked_read_only).
  { intros [H|[H _]]; discriminate H. }
  split; [exact H1|].
  exact (main_closes_connection Sample.busy Sample.stocked_read_only H1).
Defined.

(** The guarded part of [main] on a connection that cannot write: it
    writes nothing and makes no request. *)
Lemma main_try_read_only w conn token ids t st :
  session st = Some (Some t) ->
  headlines_table (disk st) = Some t ->
  writable (disk st) = false ->
  exists r st' evs,
    main_try w conn token ids st = (r, st') /\
    headlines_table (disk st') = Some t /\
    openable (disk st') = openable (disk st) /\
    writable (disk st') = false /\
    trace st' = trace st ++ evs /\
    Forall (fun e => ~ is_post e) evs.
Proof.
  intros Hs Ht Hw.
  destruct (fetch_headlines_emits w) as (hs & cs & Hfetch).
  assert (Hget : Forall (fun e => ~ is_post e) (Get BBC_URL :: (Select <$> cs))).
  { apply Forall_cons. split; [simpl; tauto|].
    apply Forall_fmap, Forall_forall. simpl. tauto. }
  unfold main_try. unfold bind at 1. rewrite Hfetch.
  destruct hs as [|c hs].
  { cbn [truthy negb]. unfold ret. eexists _, _, _. split; [reflexivity|].
    rewrite disk_emit, trace_emit. done. }
  cbn [truthy negb]. unfold bind at 1.
  destruct (save_headlines_read_only_run w conn (c :: hs) t
              (emit (Get BBC_URL :: (Select <$> cs)) st))
    as (evs & _ & Hquiet & ->); [done..|].
  destruct (decide (Forall _ (c :: hs))).
  - cbn [truthy]. unfold ret. eexists _, _, _. split; [reflexivity|].
    cbn [disk emit committed headlines_table openable writable trace].
    rewrite <- app_assoc. repeat split; try done. by apply Forall_app.
  - eexists _, _, _. split; [reflexivity|].
    rewrite !disk_emit, !trace_emit, <- app_assoc.
    repeat split; try done. by apply Forall_app.
Qed.

(** A run on a file that holds the table but cannot be written. *)
Lemma run_read_only w d t :
  openable d = true ->
  headlines_table d = Some t ->
  writable d = false ->
  exists st' evs,
    run w d = (Ok tt, st') /\
    disk st' = d /\
    trace st' = trace (before_init w (initial d))
                ++ [Connect; Execute CreateTable; Commit] ++ evs ++ [Close] /\
    Forall (fun e => ~ is_post e) evs.
Proof.
  intros Ho Ht Hw.
  assert (Hok : ~ init_fails d).
  { intros [H|[H _]]; congruence. }
  unfold run. rewrite main_run by done.
  rewrite setup_database_ok;
    [|by rewrite before_init_session|by rewrite before_init_disk].
  rewrite before_init_disk. cbn [initial disk]. fold (after_init w d).
  assert (Htable : initial_table d = t) by (unfold initial_table; by rewrite Ht).
  destruct (main_try_read_only w Conn
              (get_telegram_credentials (environ w)).1
              (get_telegram_credentials (environ w)).2 t (after_init w d))
    as (r & st1 & evs & Hrun & Ht1 & Ho1 & Hw1 & Htr & Hall).
  { unfold after_init. cbn. by rewrite Htable. }
  { unfold after_init. cbn. by rewrite Htable. }
  { unfold after_init. cbn. by rewrite before_init_disk. }
  unfold try_finally, try_except. rewrite Hrun. unfold close. exec.
  assert (Hd : disk st1 = d).
  { destruct (disk st1) as [o1 w1 t1], d as [o0 w0 t0].
    unfold after_init in Ho1. cbn in *. rewrite before_init_disk in Ho1.
    cbn in *. congruence. }
  assert (Htr' : trace st1 ++ [Close] =
                 trace (before_init w (initial d))
                 ++ [Connect; Execute CreateTable; Commit] ++ evs ++ [Close]).
  { rewrite Htr. unfold after_init. rewrite trace_emit. cbn [trace committed].
    by rewrite <- !app_assoc. }
  destruct r as [[]|e]; unfold ret; eexists _, evs;
    (split; [reflexivity|]); cbn [disk trace emit]; done.
Qed.

Lemma before_init_posts w st :
  exists evs,
    trace (before_init w st) = trace st ++ evs /\
    Forall (fun e => is_post e -> is_post_of test_message e) evs.
Proof.
  assert (Hcheck : Forall (fun e => is_post e -> is_post_of test_message e)
                     (check_events (disk st))).
  { unfold check_events. destruct (openable (disk st));
      repeat constructor; simpl; tauto. }
  unfold before_init.
  destruct (get_telegram_credentials (environ w)) as [[token|] ids].
  - destruct (first_run (disk st)).
    + exists (check_events (disk st) ++ requests token test_message ids).
      split; [by rewrite app_assoc|]. apply Forall_app. split; [done|].
      apply Forall_fmap, Forall_forall. intros c _ _. reflexivity.
    + by exists (check_events (disk st)).
  - exists []. by rewrite app_nil_r.
Qed.

(** X21: a failure of the save step is swallowed: on a file that holds the
    table but cannot be written, the run returns normally whatever the
    page holds, the file is left as it was, the connection is closed, and
    the only requests to the Telegram API are those of the bootstrap
    message: no headline notification is sent. *)
Theorem main_save_failure_swallowed w d t :
  openable d = true ->
  headlines_table d = Some t ->
  writable d = false ->
  (run w d).1 = Ok tt /\
  disk (run w d).2 = d /\
  last (trace (run w d).2) = Some Close /\
  Forall (fun e => is_post e -> is_post_of test_message e)
         (trace (run w d).2).
Proof.
  intros Ho Ht Hw.
  destruct (run_read_only w d t Ho Ht Hw) as (st' & evs & -> & Hd & Htr & Hall).
  cbn [fst snd]. split; [done|]. split; [done|]. rewrite Htr. split.
  - rewrite !app_assoc. apply last_snoc.
  - destruct (before_init_posts w (initial d)) as (evs0 & -> & Hboot).
    cbn [trace initial app]. apply Forall_app. split; [done|].
    repeat (apply Forall_cons; split; [simpl; tauto|]).
    apply Forall_app. split; [|repeat constructor; simpl; tauto].
    eapply Forall_impl; [exact Hall|]. intros e H1 H2. by destruct H1.
Qed.

Lemma main_save_failure_swallowed_witness :
  openable Sample.stocked_read_only = true /\
  headlines_table Sample.stocked_read_only = Some Sample.seen_storm /\
  writable Sample.stocked_read_only = false /\
  (run Sample.busy Sample.stocked_read_only).1 = Ok tt /\
  disk (run Sample.busy Sample.stocked_read_only).2 = Sample.stocked_read_only /\
  last (trace (run Sample.busy Sample.stocked_read_only).2) = Some Close /\
  Forall (fun e => is_post e -> is_post_of test_message e)
         (trace (run Sample.busy Sample.stocked_read_only).2).
Proof.
  split; [reflexivity|]. split; [reflexivity|]. split; [reflexivity|].
  exact (main_save_failure_swallowed Sample.busy Sample.stocked_read_only
           Sample.seen_storm eq_refl eq_refl eq_refl).
Defined.

(** X22: no run changes or removes a stored headline: whatever the
    credentials, the page, the API and the state of the file, the records
    the file held before the run are the first records it holds after the
    run, in the same order, and [main] returns normally. *)
Theorem main_keeps_records w d :
  (run w d).1 = Ok tt /\
  records d `prefix_of` records (disk (run w d).2) /\
  openable (disk (run w d).2) = openable d /\
  writable (disk (run w d).2) = writable d.
Proof.
  destruct (init_fails_dec d) as [Hfail|Hok].
  { destruct (run_init_fails w d Hfail) as (st' & -> & Hd & _).
    cbn [fst snd]. by rewrite Hd. }
  assert (Ho : openable d = true) by by apply not_init_fails_openable.
  destruct (writable d) eqn:Hw.
  - destruct (fetch_headlines_emits w) as (hs & cs & Hfetch).
    rewrite (run_writable w d hs cs Hok Hw Hfetch). cbn [fst snd].
    rewrite finished_disk. cbn [openable writable]. repeat split; try done.
    unfold records at 2. cbn.
    etrans; [|apply saveNew_prefix].
    unfold records, initial_table. by destruct (headlines_table d).
  - destruct (headlines_table d) as [t|] eqn:Ht.
    + destruct (run_read_only w d t Ho Ht Hw) as (st' & evs & -> & Hd & _).
      cbn [fst snd]. rewrite Hd. by rewrite Hw.
    + destruct Hok. right. done.
Qed.

Lemma send_telegram_notification_counts_witness :
  exists success_count total_attempts reqs,
    send_telegram_notification Sample.silent test_message
      (initial Sample.fresh) =
      (Ok (success_count, total_attempts), posted reqs (initial Sample.fresh)) /\
    success_count <= total_attempts /\
    length reqs = total_attempts /\
    Forall (is_post_of test_message) reqs /\
    total_attempts = length (get_telegram_credentials (environ Sample.silent)).2 /\
    total_attempts = 0 /\
    posted reqs (initial Sample.fresh) = initial Sample.fresh.
Proof.
  destruct (send_telegram_notification_counts Sample.silent test_message
              (initial Sample.fresh))
    as (s & n & reqs & H1 & H2 & H3 & H4 & H5 & H6).
  destruct (H6 eq_refl) as [H7 H8].
  exists s, n, reqs.
  split; [exact H1|]. split; [exact H2|]. split; [exact H3|].
  split; [exact H4|]. split; [exact H5|]. split; [exact H7|exact H8].
Defined.
